(** * InteractiveHtmlBom: the extraction pipeline of generate_interactive_bom.py

    A shallow embedding of [generate_interactive_bom.py] (Python 2) and the
    properties of its BOM aggregation, shape parsing and document assembly.

    Conventions of the embedding.
    - Python [str] values are [string]s, sequences of ASCII bytes;
      comparison is the bytewise lexicographic order ([String.compare]).
    - Python [int]s are [Z].
    - Python [float]s are kept behind the class [PyFloat], which has the
      operations the program uses; it is instantiated by IEEE 754 binary64
      (primitive floats) and by exact rationals.
    - A Python [dict] is an association list kept in insertion order, with
      [dict_get] and [dict_set]; a key occurs at most once.  CPython 2
      iterates a dictionary in hash order; the one iteration of the program,
      over the groups of the BOM, feeds a sort, and the properties of the
      table are also proved for every order of iteration.
    - [sorted(l, key=f)] is a stable sort that calls [f] once per element
      and compares keys with [<] only.
    - The [logging] calls are left out: they change no value.
    - The [pcbnew] constants, the [EDA_RECT] operations, the [os] functions
      and [units.componentValue] are not part of the file; they are
      parameters. *)

From Stdlib Require Import ZArith List Bool Ascii String Sorted Permutation Lia.
From Stdlib Require Import QArith PrimFloat SpecFloat FloatOps DecimalString DecimalZ.
Import ListNotations.

Local Open Scope Z_scope.
Local Open Scope bool_scope.

(** ** Python strings *)

Module PyStr.

Definition code (c : ascii) : N := N_of_ascii c.

(** [[0-9]] *)
Definition is_digit (c : ascii) : bool :=
  (48 <=? code c)%N && (code c <=? 57)%N.

(** [[A-Z]] *)
Definition is_upper (c : ascii) : bool :=
  (65 <=? code c)%N && (code c <=? 90)%N.

Definition lower_char (c : ascii) : ascii :=
  if is_upper c then ascii_of_N (code c + 32) else c.

(** [s.lower()] *)
Fixpoint lower (s : string) : string :=
  match s with
  | EmptyString => EmptyString
  | String c s' => String (lower_char c) (lower s')
  end.

Fixpoint all_digits (s : string) : bool :=
  match s with
  | EmptyString => true
  | String c s' => is_digit c && all_digits s'
  end.

Fixpoint no_digits (s : string) : bool :=
  match s with
  | EmptyString => true
  | String c s' => negb (is_digit c) && no_digits s'
  end.

(** [s.isdigit()]: non-empty and made of digits only. *)
Definition isdigit (s : string) : bool :=
  match s with
  | EmptyString => false
  | String _ _ => all_digits s
  end.

Definition digit_val (c : ascii) : Z := Z.of_N (code c) - 48.

Fixpoint int_acc (acc : Z) (s : string) : Z :=
  match s with
  | EmptyString => acc
  | String c s' => int_acc (10 * acc + digit_val c) s'
  end.

(** [int(s)] on a string of digits. *)
Definition int (s : string) : Z := int_acc 0 s.

(** [re.findall('^[A-Z]*', s)[0]]: the longest prefix of capitals. *)
Fixpoint upper_prefix (s : string) : string :=
  match s with
  | EmptyString => EmptyString
  | String c s' => if is_upper c then String c (upper_prefix s') else EmptyString
  end.

Definition starts_with_digit (s : string) : bool :=
  match s with
  | EmptyString => false
  | String c _ => is_digit c
  end.

(** [re.split('([0-9]+)', s)]: the maximal runs of digits with the text
    between them, [text; digits; text; ...; text].  The first and the last
    text may be empty.  One pass from the right: a digit either opens a
    new digit run or extends the one that starts the rest. *)
Fixpoint re_split_digits (s : string) : list string :=
  match s with
  | EmptyString => [EmptyString]
  | String c s' =>
      match re_split_digits s' with
      | [] => [String c EmptyString]
      | txt :: rest =>
          if is_digit c then
            match txt, rest with
            | EmptyString, d :: rest' => EmptyString :: String c d :: rest'
            | _, _ => EmptyString :: String c EmptyString :: txt :: rest
            end
          else String c txt :: rest
      end
  end.

End PyStr.

(** ** Python 2 ordering of the values that occur in sort keys *)

Module PyOrd.

(** An element of [alphanum_key]'s list: an [int] or a [str]. *)
Inductive item : Type :=
| IInt (n : Z)
| IStr (s : string).

(** Python 2 orders every number before every string. *)
Definition item_compare (a b : item) : comparison :=
  match a, b with
  | IInt x, IInt y => Z.compare x y
  | IInt _, IStr _ => Lt
  | IStr _, IInt _ => Gt
  | IStr x, IStr y => String.compare x y
  end.

(** List comparison: the first position that differs decides, a proper
    prefix is smaller. *)
Fixpoint list_compare (k1 k2 : list item) : comparison :=
  match k1, k2 with
  | [], [] => Eq
  | [], _ :: _ => Lt
  | _ :: _, [] => Gt
  | x :: xs, y :: ys =>
      match item_compare x y with
      | Eq => list_compare xs ys
      | c => c
      end
  end.

Definition is_lt (c : comparison) : bool :=
  match c with Lt => true | _ => false end.

Definition list_ltb (k1 k2 : list item) : bool := is_lt (list_compare k1 k2).

End PyOrd.

(** ** [sorted(l, key=...)] *)

Section PySorted.
Variables (A K : Type) (klt : K -> K -> bool).

(** Insert [x], which precedes every element of [l] in the input, into the
    sorted [l]: it passes the strictly smaller keys only, so equal keys
    keep their input order. *)
Fixpoint insert_key (x : K * A) (l : list (K * A)) : list (K * A) :=
  match l with
  | [] => [x]
  | y :: ys => if klt (fst y) (fst x) then y :: insert_key x ys else x :: l
  end.

Fixpoint sort_decorated (l : list (K * A)) : list (K * A) :=
  match l with
  | [] => []
  | x :: xs => insert_key x (sort_decorated xs)
  end.

(** Total key function. *)
Definition py_sorted (key : A -> K) (l : list A) : list A :=
  map snd (sort_decorated (map (fun a => (key a, a)) l)).

(** The keys of all elements, or [None] when one call raises. *)
Fixpoint decorate (key : A -> option K) (l : list A) : option (list (K * A)) :=
  match l with
  | [] => Some []
  | a :: l' =>
      match key a with
      | None => None
      | Some k =>
          match decorate key l' with
          | None => None
          | Some d => Some ((k, a) :: d)
          end
      end
  end.

(** Key function that may raise. *)
Definition py_sorted_partial (key : A -> option K) (l : list A) : option (list A) :=
  match decorate key l with
  | None => None
  | Some d => Some (map snd (sort_decorated d))
  end.

End PySorted.

Arguments insert_key {A K} klt x l.
Arguments sort_decorated {A K} klt l.
Arguments py_sorted {A K} klt key l.
Arguments decorate {A K} key l.
Arguments py_sorted_partial {A K} klt key l.

(** ** Natural sort (nested in [generate_bom]) *)

Definition convert (text : string) : PyOrd.item :=
  if PyStr.isdigit text then PyOrd.IInt (PyStr.int text)
  else PyOrd.IStr (PyStr.lower text).

Definition alphanum_key (key : string) : list PyOrd.item :=
  map convert (PyStr.re_split_digits key).

Definition natural_sort (l : list string) : list string :=
  py_sorted PyOrd.list_ltb alphanum_key l.


(** ** Python dictionaries *)

Section PyDict.
Variables (K V : Type) (eqb : K -> K -> bool).

Definition dict : Type := list (K * V).

Fixpoint dict_get (k : K) (d : dict) : option V :=
  match d with
  | [] => None
  | (k', v) :: d' => if eqb k k' then Some v else dict_get k d'
  end.

(** [d[k] = v]: replaces the value of an existing key in place, appends a
    new key. *)
Fixpoint dict_set (k : K) (v : V) (d : dict) : dict :=
  match d with
  | [] => [(k, v)]
  | (k', v') :: d' =>
      if eqb k k' then (k', v) :: d' else (k', v') :: dict_set k v d'
  end.

(** A dictionary display [{k1: v1, k2: v2, ...}]. *)
Definition dict_display (l : list (K * V)) : dict :=
  fold_left (fun d kv => dict_set (fst kv) (snd kv) d) l [].

Definition dict_keys (d : dict) : list K := map fst d.

End PyDict.

Arguments dict_get {K V} eqb k d.
Arguments dict_set {K V} eqb k v d.
Arguments dict_display {K V} eqb l.
Arguments dict_keys {K V} d.

(** ** The board model read by the program *)

(** The [pcbnew] names the program reads.  [PAD_SHAPE_ROUNDRECT] and
    [PAD_SHAPE_CUSTOM] are probed with [hasattr]: [None] when absent. *)
Record pcbnew_consts : Type := {
  S_SEGMENT : Z; S_CIRCLE : Z; S_ARC : Z; S_POLYGON : Z;
  Edge_Cuts : Z; F_SilkS : Z; B_SilkS : Z; F_Cu : Z; B_Cu : Z;
  PAD_SHAPE_RECT : Z; PAD_SHAPE_OVAL : Z; PAD_SHAPE_CIRCLE : Z;
  PAD_SHAPE_ROUNDRECT : option Z; PAD_SHAPE_CUSTOM : option Z;
  PAD_ATTRIB_STANDARD : Z; PAD_ATTRIB_HOLE_NOT_PLATED : Z;
  PAD_DRILL_SHAPE_CIRCLE : Z; PAD_DRILL_SHAPE_OBLONG : Z
}.

Definition point : Type := (Z * Z)%type.

(** [EDA_RECT]: a position and a size. *)
Record Rect : Type := { rect_GetPosition : point; rect_GetSize : point }.

(** [SHAPE_POLY_SET]: [Outline(i)] for [i < OutlineCount()].  An outline is
    [None] when the object has no [PointCount] accessor, otherwise its
    points [Point(0) .. Point(PointCount()-1)]. *)
Record poly_set : Type := {
  outlines : list (option (list point));
  HasHoles : bool;
  IsSelfIntersecting : bool
}.

(** A drawing primitive: the accessors of [DRAWSEGMENT]/[MGRAPHIC] and of
    [PTEXT]/[MTEXT] objects.  An accessor probed with [hasattr] is an
    option. *)
Module Drawing.
Record t : Type := {
  GetClass : string;
  GetLayer : Z;
  GetBoundingBox : Rect;
  GetShape : Z;
  GetStart : point;
  GetEnd : point;
  GetWidth : Z;
  GetRadius : Z;
  GetArcAngleStart : Z;
  GetAngle : Z;
  GetPolyShape : option poly_set;
  (** [GetParentModule()]: [None], or the parent's [GetOrientation()] *)
  GetParentModule : option Z;
  GetPosition : point;
  IsVisible : bool;
  GetDrawRotation : Z;
  GetTextAngle : option Z;
  GetOrientation : Z;
  (** [GetTextHeight()] and [GetTextWidth()], probed together *)
  GetTextHeight : option (Z * Z);
  GetHeight : Z;
  GetShownText : option string;
  GetText : string;
  GetHorizJustify : Z
}.
End Drawing.

Module Pad.
Record t : Type := {
  GetLayerSet : list Z;
  GetPosition : point;
  GetSize : point;
  GetPadName : string;
  GetOrientation : Z;
  GetShape : Z;
  GetCustomShapeAsPolygon : poly_set;
  GetRoundRectCornerRadius : Z;
  GetAttribute : Z;
  GetDrillShape : Z;
  GetDrillSize : point;
  GetOffset : option point
}.
End Pad.

(** [MODULE]: a footprint.  [GetFootprintName] is [None] when
    [GetFPID().GetFootprintName()] raises. *)
Module Footprint.
Record t : Type := {
  GetReference : string;
  GetValue : string;
  GetFootprintName : option string;
  GetLibItemName : string;
  GetAttributes : Z;
  GetLayer : Z;
  GetCenter : point;
  GetFootprintRect : Rect;
  GraphicalItems : list Drawing.t;
  Pads : list Pad.t;
  Reference : Drawing.t;
  Value : Drawing.t
}.
End Footprint.

Record TitleBlock : Type := {
  GetDate : string; GetTitle : string; GetRevision : string; GetCompany : string
}.

(** [BOARD].  [parse_edges] calls [pcb.getDrawings()], [parse_silkscreen]
    calls [pcb.GetDrawings()]; they are two attributes of the object, and
    [getDrawings] is [None] when the object has no attribute of that name. *)
Module Board.
Record t : Type := {
  GetFileName : string;
  GetTitleBlock : TitleBlock;
  getDrawings : option (list Drawing.t);
  GetDrawings : list Drawing.t;
  GetModules : list Footprint.t
}.
End Board.

(** ** Floating point

    The arithmetic the program does on floats: an [int] operand is
    converted, then multiplied by a literal. *)
Class PyFloat (F : Type) : Type := {
  of_int : Z -> F;
  fmul : F -> F -> F;
  lit_1e_6 : F;
  lit_0_1 : F;
  lit_m0_1 : F
}.

(** Exact arithmetic on rationals. *)
#[export] Instance exact : PyFloat Q := {
  of_int := inject_Z;
  fmul := Qmult;
  lit_1e_6 := 1 # 1000000;
  lit_0_1 := 1 # 10;
  lit_m0_1 := (-1) # 10
}.

(** IEEE 754 binary64, the [float] of CPython: conversion rounds to
    nearest even, and the literals are the doubles nearest to [1e-6] and
    [0.1]. *)
#[export] Instance binary64 : PyFloat float := {
  of_int := fun z => SF2Prim (binary_normalize prec emax z 0 false);
  fmul := PrimFloat.mul;
  lit_1e_6 := 0x1.0c6f7a0b5ed8dp-20%float;
  lit_0_1 := 0x1.999999999999ap-4%float;
  lit_m0_1 := (-0x1.999999999999ap-4)%float
}.

(** ** Values the program emits *)

Local Open Scope string_scope.
Local Open Scope list_scope.
Local Open Scope Z_scope.

(** The outcome of a call: a value, or an exception that propagates. *)
Inductive result (A : Type) : Type :=
| Ok (a : A)
| Raise (exc : string).

Arguments Ok {A} a.
Arguments Raise {A} exc.

(** [str(n)] for an [int]. *)
Definition str_of_int (n : Z) : string := NilEmpty.string_of_int (Z.to_int n).

Definition key_eqb (a b : string * string * string) : bool :=
  let '(a1, a2, a3) := a in
  let '(b1, b2, b3) := b in
  String.eqb a1 b1 && String.eqb a2 b2 && String.eqb a3 b3.

(** A BOM line [(qty, value, footprint, refs)]. *)
Record bom_row : Type := {
  qty : Z;
  value : string;
  footprint : string;
  refs : list string
}.

(** The tuple [sort_func] returns. *)
Definition sortkey : Type := (Z * string * Z * list PyOrd.item)%type.

(** Tuple comparison, component by component. *)
Definition sortkey_compare (a b : sortkey) : comparison :=
  let '(a1, a2, a3, a4) := a in
  let '(b1, b2, b3, b4) := b in
  match Z.compare a1 b1 with
  | Eq =>
      match String.compare a2 b2 with
      | Eq =>
          match Z.compare a3 b3 with
          | Eq => PyOrd.list_compare a4 b4
          | c => c
          end
      | c => c
      end
  | c => c
  end.

Definition sortkey_ltb (a b : sortkey) : bool :=
  PyOrd.is_lt (sortkey_compare a b).

Definition ref_ord_dict : dict string Z :=
  dict_display String.eqb
    [("C", 1); ("R", 2); ("L", 3); ("D", 4); ("Q", 5); ("U", 6); ("Y", 7);
     ("X", 8); ("F", 9); ("SW", 10); ("A", 11); ("HS", 1996); ("CNN", 1997);
     ("J", 1998); ("P", 1999); ("NT", 2000); ("MH", 2001)].

Definition ref_ord (prefix : string) : Z :=
  match dict_get String.eqb prefix ref_ord_dict with
  | Some n => n
  | None => 1000
  end.

(** [sort_func]; [rf[0]] raises on an empty list. *)
Definition sort_func (row : bom_row) : option sortkey :=
  match refs row with
  | [] => None
  | rf0 :: _ =>
      let prefix := PyStr.upper_prefix rf0 in
      Some (ref_ord prefix, footprint row, - qty row, alphanum_key rf0)
  end.

Definition attr_dict : dict Z string :=
  dict_display Z.eqb [(0, "Normal"); (1, "Normal+Insert"); (2, "Virtual")].

Definition attr_label (attr : Z) : string :=
  match dict_get Z.eqb attr attr_dict with
  | Some s => s
  | None => str_of_int attr
  end.

Definition footprint_name (m : Footprint.t) : string :=
  match Footprint.GetFootprintName m with
  | Some s => s
  | None => Footprint.GetLibItemName m
  end.

Section Bom.
(** [units.componentValue] *)
Variable componentValue : string -> string.

Definition group_key (m : Footprint.t) : string * string * string :=
  (componentValue (Footprint.GetValue m), footprint_name m,
   attr_label (Footprint.GetAttributes m)).

Definition filtered_out (filter_layer : option Z) (m : Footprint.t) : bool :=
  match filter_layer with
  | None => false
  | Some l => negb (l =? Footprint.GetLayer m)
  end.

(** One turn of the grouping loop: [setdefault] then [append] on the list
    the dictionary holds. *)
Definition group_step (filter_layer : option Z)
    (part_groups : dict (string * string * string) (string * list string))
    (m : Footprint.t) : dict (string * string * string) (string * list string) :=
  if filtered_out filter_layer m then part_groups
  else
    let k := group_key m in
    match dict_get key_eqb k part_groups with
    | Some (v, rs) =>
        dict_set key_eqb k (v, rs ++ [Footprint.GetReference m]) part_groups
    | None =>
        dict_set key_eqb k (Footprint.GetValue m, [Footprint.GetReference m])
          part_groups
    end.

Definition part_groups (pcb : Board.t) (filter_layer : option Z)
  : dict (string * string * string) (string * list string) :=
  fold_left (group_step filter_layer) (Board.GetModules pcb) [].

Definition bom_line (item : (string * string * string) * (string * list string))
  : list bom_row :=
  let '((_, fp, attr), (v, rs)) := item in
  if String.eqb attr "Virtual" then []
  else [ {| qty := Z.of_nat (List.length rs); value := v; footprint := fp;
            refs := natural_sort rs |} ].

Definition bom_table (pcb : Board.t) (filter_layer : option Z) : list bom_row :=
  flat_map bom_line (part_groups pcb filter_layer).

(** [None]: [sort_func] raised. *)
Definition generate_bom (pcb : Board.t) (filter_layer : option Z)
  : option (list bom_row) :=
  py_sorted_partial sortkey_ltb sort_func (bom_table pcb filter_layer).

End Bom.

(** ** Geometry and shape parsing *)

Section Geometry.
Context {F : Type} {FL : PyFloat F}.
Variable K : pcbnew_consts.

(** What the program stores under ["angle"] of a polygon: the [int]
    [0], a [float], or a tuple of floats. *)
Inductive pyval : Type :=
| VInt (n : Z)
| VFloat (x : F)
| VTuple (l : list F).

(** The dictionary a drawing is parsed to; the constructor is the
    ["type"] entry ([Text] has none). *)
Inductive drawing_rec : Type :=
| Segment (start end_ : F * F) (width : F)
| Circle (start : F * F) (radius width : F)
| Arc (start : F * F) (radius startangle endangle width : F)
| Polygon (pos : F * F) (angle : pyval) (polygons : list (list (F * F)))
| Text (pos : F * F) (text : string) (height width : F)
       (horiz_justify : Z) (angle : F).

(** [x * 1e-6] *)
Definition scale (x : Z) : F := fmul (of_int x) lit_1e_6.

Definition normalize (p : point) : F * F := (scale (fst p), scale (snd p)).

(** The loop over the outlines: the first outline without [PointCount]
    returns what was collected so far. *)
Fixpoint parse_outlines (result : list (list (F * F)))
    (os : list (option (list point))) : list (list (F * F)) :=
  match os with
  | [] => result
  | None :: _ => result
  | Some pts :: os' => parse_outlines (result ++ [map normalize pts]) os'
  end.

Definition parse_poly_set (polygon_set : poly_set) : list (list (F * F)) :=
  parse_outlines [] (outlines polygon_set).

Definition shape_dict : dict Z string :=
  dict_display Z.eqb
    [(S_SEGMENT K, "segment"); (S_CIRCLE K, "circle"); (S_ARC K, "arc");
     (S_POLYGON K, "polygon")].

Definition parse_draw_segment (d : Drawing.t) : option drawing_rec :=
  let shape :=
    match dict_get Z.eqb (Drawing.GetShape d) shape_dict with
    | Some s => s
    | None => ""
    end in
  if String.eqb shape "" then None
  else
    let start := normalize (Drawing.GetStart d) in
    let end_ := normalize (Drawing.GetEnd d) in
    if String.eqb shape "segment" then
      Some (Segment start end_ (scale (Drawing.GetWidth d)))
    else if String.eqb shape "circle" then
      Some (Circle start (scale (Drawing.GetRadius d))
              (scale (Drawing.GetWidth d)))
    else if String.eqb shape "arc" then
      let a1 := fmul (of_int (Drawing.GetArcAngleStart d)) lit_0_1 in
      let a2 :=
        fmul (of_int (Drawing.GetArcAngleStart d + Drawing.GetAngle d))
          lit_0_1 in
      let '(a1, a2) := if Drawing.GetAngle d <? 0 then (a2, a1) else (a1, a2) in
      let r := scale (Drawing.GetRadius d) in
      Some (Arc start r a1 a2 (scale (Drawing.GetWidth d)))
    else if String.eqb shape "polygon" then
      match Drawing.GetPolyShape d with
      | Some ps =>
          let polygons := parse_poly_set ps in
          let angle :=
            match Drawing.GetParentModule d with
            | Some orientation =>
                VTuple [fmul (of_int orientation) lit_0_1]
            | None => VInt 0
            end in
          Some (Polygon start angle polygons)
      | None => None
      end
    else None.

Definition parse_text (d : Drawing.t) : option drawing_rec :=
  let pos := normalize (Drawing.GetPosition d) in
  if negb (Drawing.IsVisible d) then None
  else
    let angle :=
      if String.eqb (Drawing.GetClass d) "MTEXT" then
        fmul (of_int (Drawing.GetDrawRotation d)) lit_0_1
      else
        match Drawing.GetTextAngle d with
        | Some a => fmul (of_int a) lit_0_1
        | None => fmul (of_int (Drawing.GetOrientation d)) lit_0_1
        end in
    let '(height, width) :=
      match Drawing.GetTextHeight d with
      | Some (h, w) => (scale h, scale w)
      | None => (scale (Drawing.GetHeight d), scale (Drawing.GetWidth d))
      end in
    let text :=
      match Drawing.GetShownText d with
      | Some s => s
      | None => Drawing.GetText d
      end in
    Some (Text pos text height width (Drawing.GetHorizJustify d) angle).

Definition str_in (s : string) (l : list string) : bool :=
  existsb (String.eqb s) l.

Definition parse_drawing (d : Drawing.t) : option drawing_rec :=
  if str_in (Drawing.GetClass d) ["DRAWSEGMENT"; "MGRAPHIC"] then
    parse_draw_segment d
  else if str_in (Drawing.GetClass d) ["PTEXT"; "MTEXT"] then parse_text d
  else None.

(** ** Outline and silkscreen *)

(** [EDA_RECT.Merge] and [EDA_RECT.Normalize] *)
Variables (rect_Merge : Rect -> Rect -> Rect) (rect_Normalize : Rect -> Rect).

Definition edge_step (acc : list drawing_rec * option Rect) (d : Drawing.t)
  : list drawing_rec * option Rect :=
  let '(edges, bbox) := acc in
  if Drawing.GetLayer d =? Edge_Cuts K then
    match parse_drawing d with
    | Some parsed_drawing =>
        (edges ++ [parsed_drawing],
         match bbox with
         | None => Some (Drawing.GetBoundingBox d)
         | Some b => Some (rect_Merge b (Drawing.GetBoundingBox d))
         end)
    | None => acc
    end
  else acc.

Definition all_graphical_items (pcb : Board.t) : list Drawing.t :=
  flat_map Footprint.GraphicalItems (Board.GetModules pcb).

Definition parse_edges (pcb : Board.t)
  : result (list drawing_rec * option Rect) :=
  match Board.getDrawings pcb with
  | None => Raise "AttributeError"
  | Some ds =>
      let drawings := ds ++ all_graphical_items pcb in
      let '(edges, bbox) := fold_left edge_step drawings ([], None) in
      Ok (edges, option_map rect_Normalize bbox)
  end.

Definition z_in (z : Z) (l : list Z) : bool := existsb (Z.eqb z) l.

Definition silk_step (acc : list drawing_rec * list drawing_rec)
    (d : Drawing.t) : list drawing_rec * list drawing_rec :=
  let '(front, back) := acc in
  if negb (z_in (Drawing.GetLayer d) [F_SilkS K; B_SilkS K]) then acc
  else
    match parse_drawing d with
    | None => acc
    | Some drawing =>
        if Drawing.GetLayer d =? F_SilkS K then (front ++ [drawing], back)
        else (front, back ++ [drawing])
    end.

Definition silk_drawings (pcb : Board.t) : list Drawing.t :=
  Board.GetDrawings pcb ++
  flat_map (fun m => Footprint.Reference m :: Footprint.Value m ::
                       Footprint.GraphicalItems m)
    (Board.GetModules pcb).

(** The pair is [{"F": front, "B": back}]. *)
Definition parse_silkscreen (pcb : Board.t)
  : list drawing_rec * list drawing_rec :=
  fold_left silk_step (silk_drawings pcb) ([], []).

(** ** Pads *)

(** The dictionary of a pad.  An entry that is set on some paths only is
    an option; ["drillshape"] holds the result of [dict.get], which is
    [None] when the code is not in the table. *)
Record pad_rec : Type := {
  pad_layers : list string;
  pad_pos : F * F;
  pad_size : F * F;
  pad_angle : F;
  pad_shape : string;
  pad_pin1 : option Z;
  pad_polygons : option (list (list (F * F)));
  pad_radius : option F;
  pad_type : string;
  pad_drillshape : option (option string);
  pad_drillsize : option (F * F);
  pad_offset : option (F * F)
}.

Definition set_opt (k : option Z) (v : string) (d : dict Z string)
  : dict Z string :=
  match k with
  | Some c => dict_set Z.eqb c v d
  | None => d
  end.

Definition shape_lookup : dict Z string :=
  set_opt (PAD_SHAPE_CUSTOM K) "custom"
    (set_opt (PAD_SHAPE_ROUNDRECT K) "roundrect"
       (dict_display Z.eqb
          [(PAD_SHAPE_RECT K, "rect"); (PAD_SHAPE_OVAL K, "oval");
           (PAD_SHAPE_CIRCLE K, "circle")])).

Definition drill_dict : dict Z string :=
  dict_display Z.eqb
    [(PAD_DRILL_SHAPE_CIRCLE K, "circle"); (PAD_DRILL_SHAPE_OBLONG K, "oblong")].

Definition parse_pad (pad : Pad.t) : option pad_rec :=
  let layers_set := Pad.GetLayerSet pad in
  let layers :=
    (if z_in (F_Cu K) layers_set then ["F"] else []) ++
    (if z_in (B_Cu K) layers_set then ["B"] else []) in
  let pos := normalize (Pad.GetPosition pad) in
  let size := normalize (Pad.GetSize pad) in
  let is_pin1 :=
    String.eqb (Pad.GetPadName pad) "1" || String.eqb (Pad.GetPadName pad) "A1" in
  let angle := fmul (of_int (Pad.GetOrientation pad)) lit_m0_1 in
  let shape :=
    match dict_get Z.eqb (Pad.GetShape pad) shape_lookup with
    | Some s => s
    | None => ""
    end in
  if String.eqb shape "" then None
  else
    let th :=
      (Pad.GetAttribute pad =? PAD_ATTRIB_STANDARD K) ||
      (Pad.GetAttribute pad =? PAD_ATTRIB_HOLE_NOT_PLATED K) in
    Some {|
      pad_layers := layers;
      pad_pos := pos;
      pad_size := size;
      pad_angle := angle;
      pad_shape := shape;
      pad_pin1 := if is_pin1 then Some 1 else None;
      pad_polygons :=
        if String.eqb shape "custom"
        then Some (parse_poly_set (Pad.GetCustomShapeAsPolygon pad))
        else None;
      pad_radius :=
        if String.eqb shape "roundrect"
        then Some (scale (Pad.GetRoundRectCornerRadius pad))
        else None;
      pad_type := if th then "th" else "smd";
      pad_drillshape :=
        if th then Some (dict_get Z.eqb (Pad.GetDrillShape pad) drill_dict)
        else None;
      pad_drillsize :=
        if th then Some (normalize (Pad.GetDrillSize pad)) else None;
      pad_offset := option_map normalize (Pad.GetOffset pad)
    |}.

(** ** Footprints *)

Record module_rec : Type := {
  mod_ref : string;
  mod_center : F * F;
  mod_bbox : (F * F) * (F * F);
  mod_pads : list pad_rec;
  mod_drawings : list (string * drawing_rec);
  mod_layer : option string
}.

Definition module_drawing (d : Drawing.t) : list (string * drawing_rec) :=
  if negb (z_in (Drawing.GetLayer d) [F_Cu K; B_Cu K]) then []
  else
    match parse_drawing d with
    | None => []
    | Some drawing =>
        [(if Drawing.GetLayer d =? F_Cu K then "F" else "B", drawing)]
    end.

Definition module_pad (p : Pad.t) : list pad_rec :=
  match parse_pad p with
  | Some pad_dict => [pad_dict]
  | None => []
  end.

(** The dictionary stored under [modules[ref]]. *)
Definition module_entry (m : Footprint.t) : module_rec :=
  let mrect := Footprint.GetFootprintRect m in
  {| mod_ref := Footprint.GetReference m;
     mod_center := normalize (Footprint.GetCenter m);
     mod_bbox := (normalize (rect_GetPosition mrect),
                  normalize (rect_GetSize mrect));
     mod_pads := flat_map module_pad (Footprint.Pads m);
     mod_drawings := flat_map module_drawing (Footprint.GraphicalItems m);
     mod_layer :=
       dict_get Z.eqb (Footprint.GetLayer m)
         (dict_display Z.eqb [(F_Cu K, "F"); (B_Cu K, "B")]) |}.

Definition parse_modules (pcb : Board.t) : dict string module_rec :=
  fold_left
    (fun modules m =>
       dict_set String.eqb (Footprint.GetReference m) (module_entry m) modules)
    (Board.GetModules pcb) [].

(** ** The document and [main] *)

Record metadata_rec : Type := {
  md_title : string; md_revision : string; md_company : string; md_date : string
}.

Record bbox_rec : Type := { minx : F; miny : F; maxx : F; maxy : F }.

Record pcbdata : Type := {
  edges_bbox : bbox_rec;
  edges : list drawing_rec;
  silkscreen : list drawing_rec * list drawing_rec;
  modules : dict string module_rec;
  metadata : metadata_rec;
  bom : dict string (list bom_row)
}.

(** How an error message reaches the user: [logging.error] on the command
    line, [wx.MessageBox] in the plugin. *)
Inductive channel : Type := LogError | MessageBox.

(** What a run of [main] does: it returns after a message and writes
    nothing, it writes the document with [generate_file] (and may open
    it), or an exception leaves it. *)
Inductive outcome : Type :=
| Reported (c : channel) (msg : string)
| Written (dir : string) (doc : pcbdata) (browser : bool)
| Raised (exc : string).

Variable componentValue : string -> string.
(** [EDA_RECT.GetRight], [EDA_RECT.GetBottom] *)
Variables rect_GetRight rect_GetBottom : Rect -> Z.
(** The file's modification time as [%Y-%m-%d %H:%M:%S], the base name
    without extension, and [os.path.join(os.path.dirname(f), "bom")]. *)
Variables mtime_date title_of_path bom_dir_of_path : string -> string.

Definition report (is_cli : bool) (msg : string) : outcome :=
  Reported (if is_cli then LogError else MessageBox) msg.

Definition msg_save : string :=
  "Please save the board file before generating BOM.".

Definition msg_outline : string :=
  "Please draw pcb outline on the edges layer on sheet or any module before generating BOM.".

Definition bom_views (pcb : Board.t) : option (dict string (list bom_row)) :=
  match generate_bom componentValue pcb None with
  | None => None
  | Some both =>
      fold_left
        (fun acc layer =>
           match acc with
           | None => None
           | Some d =>
               match generate_bom componentValue pcb (Some layer) with
               | None => None
               | Some bom_table =>
                   Some (dict_set String.eqb
                           (if layer =? F_Cu K then "F" else "B") bom_table d)
               end
           end)
        [F_Cu K; B_Cu K]
        (Some (dict_set String.eqb "both" both []))
  end.

Definition main (is_cli : bool) (pcb : Board.t) (launch_browser : bool)
  : outcome :=
  let pcb_file_name := Board.GetFileName pcb in
  if String.eqb pcb_file_name "" then report is_cli msg_save
  else
    let bom_file_dir := bom_dir_of_path pcb_file_name in
    let title_block := Board.GetTitleBlock pcb in
    let file_date :=
      if String.eqb (GetDate title_block) "" then mtime_date pcb_file_name
      else GetDate title_block in
    let title :=
      if String.eqb (GetTitle title_block) "" then title_of_path pcb_file_name
      else GetTitle title_block in
    match parse_edges pcb with
    | Raise e => Raised e
    | Ok (_, None) => report is_cli msg_outline
    | Ok (edges_, Some bbox) =>
        let bbox_ :=
          {| minx := scale (fst (rect_GetPosition bbox));
             miny := scale (snd (rect_GetPosition bbox));
             maxx := scale (rect_GetRight bbox);
             maxy := scale (rect_GetBottom bbox) |} in
        let silk := parse_silkscreen pcb in
        let mods := parse_modules pcb in
        match bom_views pcb with
        | None => Raised "IndexError"
        | Some bom_ =>
            Written bom_file_dir
              {| edges_bbox := bbox_;
                 edges := edges_;
                 silkscreen := silk;
                 modules := mods;
                 metadata :=
                   {| md_title := title;
                      md_revision := GetRevision title_block;
                      md_company := GetCompany title_block;
                      md_date := file_date |};
                 bom := bom_ |}
              launch_browser
        end
    end.

End Geometry.

(** ** The orders the specification describes *)

(** The runs of a reference. *)
Definition runs (s : string) : list string := PyStr.re_split_digits s.

Definition join (rs : list string) : string :=
  fold_right String.append "" rs.

(** Text and digit runs alternate; [text_turn] tells which kind is due. *)
Fixpoint alternating (text_turn : bool) (rs : list string) : bool :=
  match rs with
  | [] => true
  | r :: rs' =>
      (if text_turn then PyStr.no_digits r else PyStr.isdigit r) &&
      alternating (negb text_turn) rs'
  end.

(** Run by run: text runs as lower-case text, digit runs as integers; a
    list of runs that is a proper prefix of the other is smaller. *)
Fixpoint runs_compare (text_turn : bool) (r1 r2 : list string) : comparison :=
  match r1, r2 with
  | [], [] => Eq
  | [], _ :: _ => Lt
  | _ :: _, [] => Gt
  | x :: xs, y :: ys =>
      let c :=
        if text_turn then String.compare (PyStr.lower x) (PyStr.lower y)
        else Z.compare (PyStr.int x) (PyStr.int y) in
      match c with
      | Eq => runs_compare (negb text_turn) xs ys
      | _ => c
      end
  end.

Definition natural_le (a b : string) : Prop :=
  runs_compare true (runs a) (runs b) <> Gt.

(** The rank of a reference prefix, as the specification lists it. *)
Definition category_rank (prefix : string) : Z :=
  if String.eqb prefix "C" then 1
  else if String.eqb prefix "R" then 2
  else if String.eqb prefix "L" then 3
  else if String.eqb prefix "D" then 4
  else if String.eqb prefix "Q" then 5
  else if String.eqb prefix "U" then 6
  else if String.eqb prefix "Y" then 7
  else if String.eqb prefix "X" then 8
  else if String.eqb prefix "F" then 9
  else if String.eqb prefix "SW" then 10
  else if String.eqb prefix "A" then 11
  else if String.eqb prefix "HS" then 1996
  else if String.eqb prefix "CNN" then 1997
  else if String.eqb prefix "J" then 1998
  else if String.eqb prefix "P" then 1999
  else if String.eqb prefix "NT" then 2000
  else if String.eqb prefix "MH" then 2001
  else 1000.

(** The first reference of a row. *)
Definition first_ref (r : bom_row) : string := hd "" (refs r).

Definition row_rank (r : bom_row) : Z :=
  category_rank (PyStr.upper_prefix (first_ref r)).

(** The priority chain: rank, then footprint name ascending, then quantity
    descending, then the natural order of the first reference. *)
Definition priority_le (r1 r2 : bom_row) : Prop :=
  row_rank r1 < row_rank r2 \/
  (row_rank r1 = row_rank r2 /\
   (String.compare (footprint r1) (footprint r2) = Lt \/
    (footprint r1 = footprint r2 /\
     (qty r1 > qty r2 \/
      (qty r1 = qty r2 /\ natural_le (first_ref r1) (first_ref r2)))))).

(** The footprints that carry the grouping key [k], in board order. *)
Definition members (componentValue : string -> string)
    (k : string * string * string) (ms : list Footprint.t) : list Footprint.t :=
  filter (fun m => key_eqb (group_key componentValue m) k) ms.

(** What the grouping holds under [k] once [ms] are processed: nothing, or
    the value of the first member and the references of all members. *)
Definition group_of (componentValue : string -> string)
    (k : string * string * string) (ms : list Footprint.t)
  : option (string * list string) :=
  match members componentValue k ms with
  | [] => None
  | m0 :: _ =>
      Some (Footprint.GetValue m0,
            map Footprint.GetReference (members componentValue k ms))
  end.

Definition is_virtual (m : Footprint.t) : bool := Footprint.GetAttributes m =? 2.

(** ** Inputs for the examples *)

(** The constants of one KiCad 5 build. *)
Definition kicad5 : pcbnew_consts := {|
  S_SEGMENT := 0; S_CIRCLE := 3; S_ARC := 2; S_POLYGON := 4;
  Edge_Cuts := 44; F_SilkS := 37; B_SilkS := 36; F_Cu := 0; B_Cu := 31;
  PAD_SHAPE_RECT := 1; PAD_SHAPE_OVAL := 2; PAD_SHAPE_CIRCLE := 0;
  PAD_SHAPE_ROUNDRECT := Some 4; PAD_SHAPE_CUSTOM := Some 5;
  PAD_ATTRIB_STANDARD := 0; PAD_ATTRIB_HOLE_NOT_PLATED := 3;
  PAD_DRILL_SHAPE_CIRCLE := 0; PAD_DRILL_SHAPE_OBLONG := 1
|}.

Definition unit_rect : Rect :=
  {| rect_GetPosition := (0, 0); rect_GetSize := (1000000, 1000000) |}.

(** A [DRAWSEGMENT] of the given shape and layer. *)
Definition graphic (shape layer : Z) (start end_ : point)
    (width radius arc_start sweep : Z)
    (poly : option poly_set) (parent : option Z) : Drawing.t := {|
  Drawing.GetClass := "DRAWSEGMENT";
  Drawing.GetLayer := layer;
  Drawing.GetBoundingBox := unit_rect;
  Drawing.GetShape := shape;
  Drawing.GetStart := start;
  Drawing.GetEnd := end_;
  Drawing.GetWidth := width;
  Drawing.GetRadius := radius;
  Drawing.GetArcAngleStart := arc_start;
  Drawing.GetAngle := sweep;
  Drawing.GetPolyShape := poly;
  Drawing.GetParentModule := parent;
  Drawing.GetPosition := start;
  Drawing.IsVisible := true;
  Drawing.GetDrawRotation := 0;
  Drawing.GetTextAngle := None;
  Drawing.GetOrientation := 0;
  Drawing.GetTextHeight := None;
  Drawing.GetHeight := 0;
  Drawing.GetShownText := None;
  Drawing.GetText := "";
  Drawing.GetHorizJustify := 0
|}.

(** An arc from angle 0 with a sweep of -90 degrees. *)
Definition sample_arc : Drawing.t :=
  graphic 2 44 (0, 0) (1000000, 0) 150000 1000000 0 (-900) None None.

Definition sample_triangle : poly_set := {|
  outlines := [Some [(0, 0); (1000000, 0); (0, 1000000)]];
  HasHoles := false;
  IsSelfIntersecting := false
|}.

(** A polygon that belongs to a footprint turned by 90 degrees. *)
Definition sample_polygon : Drawing.t :=
  graphic 4 0 (0, 0) (0, 0) 0 0 0 0 (Some sample_triangle) (Some 900).

Definition blank_text : Drawing.t :=
  graphic 0 37 (0, 0) (0, 0) 0 0 0 0 None None.

(** A footprint without pads or graphics. *)
Definition sample_footprint (ref val : string) (attr layer : Z) (center : point)
    (items : list Drawing.t) : Footprint.t := {|
  Footprint.GetReference := ref;
  Footprint.GetValue := val;
  Footprint.GetFootprintName := Some "R_0805";
  Footprint.GetLibItemName := "R_0805";
  Footprint.GetAttributes := attr;
  Footprint.GetLayer := layer;
  Footprint.GetCenter := center;
  Footprint.GetFootprintRect := unit_rect;
  Footprint.GraphicalItems := items;
  Footprint.Pads := [];
  Footprint.Reference := blank_text;
  Footprint.Value := blank_text
|}.

Definition blank_title : TitleBlock :=
  {| GetDate := ""; GetTitle := ""; GetRevision := ""; GetCompany := "" |}.

Definition sample_edge : Drawing.t :=
  graphic 0 44 (0, 0) (1000000, 0) 150000 0 0 0 None None.

(** Two footprints with the reference [R1], the second on the back. *)
Definition board_duplicate_ref : Board.t := {|
  Board.GetFileName := "demo.kicad_pcb";
  Board.GetTitleBlock := blank_title;
  Board.getDrawings := Some [sample_edge];
  Board.GetDrawings := [sample_edge];
  Board.GetModules :=
    [sample_footprint "R1" "10k" 0 0 (0, 0) [];
     sample_footprint "R2" "10k" 0 0 (1000000, 0) [];
     sample_footprint "R1" "4k7" 0 31 (2000000, 0) []]
|}.

(** A board with an outline that was never saved to a file. *)
Definition board_unsaved : Board.t := {|
  Board.GetFileName := "";
  Board.GetTitleBlock := blank_title;
  Board.getDrawings := Some [sample_edge];
  Board.GetDrawings := [sample_edge];
  Board.GetModules := []
|}.

(** A board without any drawing on the outline layer. *)
Definition board_no_outline : Board.t := {|
  Board.GetFileName := "demo.kicad_pcb";
  Board.GetTitleBlock := blank_title;
  Board.getDrawings := Some [];
  Board.GetDrawings := [];
  Board.GetModules := [sample_footprint "R1" "10k" 0 0 (0, 0) []]
|}.

(** A saved board as [pcbnew] hands it over: it has [GetDrawings], with an
    outline segment, and no attribute [getDrawings]. *)
Definition board_pcbnew : Board.t := {|
  Board.GetFileName := "demo.kicad_pcb";
  Board.GetTitleBlock := blank_title;
  Board.getDrawings := None;
  Board.GetDrawings := [sample_edge];
  Board.GetModules := [sample_footprint "R1" "10k" 0 0 (0, 0) []]
|}.

(** The same board without any drawing on the outline layer. *)
Definition board_pcbnew_no_outline : Board.t := {|
  Board.GetFileName := "demo.kicad_pcb";
  Board.GetTitleBlock := blank_title;
  Board.getDrawings := None;
  Board.GetDrawings := [];
  Board.GetModules := [sample_footprint "R1" "10k" 0 0 (0, 0) []]
|}.

(** A through-hole pad of the given shape and drill-shape codes. *)
Definition sample_pad (shape attr drill_shape : Z) : Pad.t := {|
  Pad.GetLayerSet := [0; 31];
  Pad.GetPosition := (0, 0);
  Pad.GetSize := (1600000, 1600000);
  Pad.GetPadName := "1";
  Pad.GetOrientation := 0;
  Pad.GetShape := shape;
  Pad.GetCustomShapeAsPolygon := sample_triangle;
  Pad.GetRoundRectCornerRadius := 0;
  Pad.GetAttribute := attr;
  Pad.GetDrillShape := drill_shape;
  Pad.GetDrillSize := (800000, 800000);
  Pad.GetOffset := None
|}.

(** The outline primitives of a board that parse. *)
Definition outline_parsed {F : Type} {FL : PyFloat F} (K : pcbnew_consts)
    (drawings : list Drawing.t) : list Drawing.t :=
  filter
    (fun d =>
       (Drawing.GetLayer d =? Edge_Cuts K) &&
       match parse_drawing (F := F) K d with Some _ => true | None => false end)
    drawings.

(** ** Vocabulary of the proofs *)

(** A comparison that is a total order. *)
Class CmpOrder {A : Type} (cmp : A -> A -> comparison) : Prop := {
  cmp_refl : forall a, cmp a a = Eq;
  cmp_eq : forall a b, cmp a b = Eq -> a = b;
  cmp_antisym : forall a b, cmp a b = CompOpp (cmp b a);
  cmp_lt_trans : forall a b c, cmp a b = Lt -> cmp b c = Lt -> cmp a c = Lt
}.


(** In a list of decorated elements, [a] may stand before [b]. *)
Definition key_le {A K : Type} (klt : K -> K -> bool) (a b : K * A) : Prop :=
  klt (fst b) (fst a) = false.

(** The grouping after [done]: every key holds its group, once. *)
Definition groups_invariant (componentValue : string -> string)
    (d : dict (string * string * string) (string * list string))
    (done : list Footprint.t) : Prop :=
  NoDup (dict_keys d) /\
  forall k, dict_get key_eqb k d = group_of componentValue k done.

(** The references held under the keys that satisfy [P]. *)
Definition held (P : string * string * string -> bool)
    (kv : (string * string * string) * (string * list string)) : list string :=
  if P (fst kv) then snd (snd kv) else [].

Definition not_virtual_key (k : string * string * string) : bool :=
  negb (String.eqb (snd k) "Virtual").

(** ** A table of binary64 angles *)

Fixpoint zrange (lo : Z) (n : nat) : list Z :=
  match n with
  | O => []
  | S n' => lo :: zrange (lo + 1) n'
  end.

(** [x * 0.1] in binary64. *)
Definition tenth_b64 (x : Z) : float := fmul (of_int x) lit_0_1.

(** Every element is at most itself and every later one. *)
Fixpoint pairwise_leb (l : list float) : bool :=
  match l with
  | [] => true
  | x :: t => forallb (PrimFloat.leb x) (x :: t) && pairwise_leb t
  end.

(** The angles of two turns either way, in tenths of a degree. *)
Definition two_turns : list Z := zrange (-7200) (Z.to_nat 14401).

(** ** Vocabulary of the further properties *)

Definition opt_list {A : Type} (o : option A) : list A :=
  match o with
  | Some a => [a]
  | None => []
  end.

(** The records of the drawings of a list that parse, in order. *)
Definition parsed_list {F : Type} {FL : PyFloat F} (K : pcbnew_consts)
    (ds : list Drawing.t) : list (drawing_rec (F := F)) :=
  flat_map (fun d => opt_list (parse_drawing K d)) ds.

(** The bounding boxes of a list of drawings merged into [b], left to
    right. *)
Definition merge_boxes (rect_Merge : Rect -> Rect -> Rect) (b : option Rect)
    (ds : list Drawing.t) : option Rect :=
  fold_left
    (fun acc d =>
       match acc with
       | None => Some (Drawing.GetBoundingBox d)
       | Some r => Some (rect_Merge r (Drawing.GetBoundingBox d))
       end)
    ds b.

Definition is_graphic_class (d : Drawing.t) : Prop :=
  Drawing.GetClass d = "DRAWSEGMENT" \/ Drawing.GetClass d = "MGRAPHIC".

Definition is_text_class (d : Drawing.t) : Prop :=
  Drawing.GetClass d = "PTEXT" \/ Drawing.GetClass d = "MTEXT".

Definition is_text_rec {F : Type} (r : drawing_rec (F := F)) : Prop :=
  match r with
  | Text _ _ _ _ _ _ => True
  | _ => False
  end.

(** The shape of a graphic is not supported: its code is not in the table,
    or it is a polygon and the object has no [GetPolyShape]. *)
Definition unsupported_shape (K : pcbnew_consts) (d : Drawing.t) : Prop :=
  dict_get Z.eqb (Drawing.GetShape d) (shape_dict K) = None \/
  (dict_get Z.eqb (Drawing.GetShape d) (shape_dict K) = Some "polygon" /\
   Drawing.GetPolyShape d = None).

(** The footprints a BOM with the given layer filter counts: on the
    layer, when one is given, and not virtual. *)
Definition counted (filter_layer : option Z) (m : Footprint.t) : bool :=
  negb (filtered_out filter_layer m) && negb (is_virtual m).

Definition total_qty (table : list bom_row) : Z :=
  fold_right Z.add 0 (map qty table).

Fixpoint all_upper (s : string) : bool :=
  match s with
  | EmptyString => true
  | String c s' => PyStr.is_upper c && all_upper s'
  end.

Definition starts_upper (s : string) : bool :=
  match s with
  | EmptyString => false
  | String c _ => PyStr.is_upper c
  end.

Definition key_dec (a b : string * string * string) : {a = b} + {a <> b}.
Proof. repeat decide equality. Defined.

(** * Properties *)

(** ** Comparisons that are total orders *)

Section CmpFacts.
Context {A : Type} {cmp : A -> A -> comparison} {O : CmpOrder cmp}.

Lemma cmp_gt_lt a b : cmp a b = Gt <-> cmp b a = Lt.
Proof.
  rewrite (cmp_antisym a b). destruct (cmp b a); simpl; split; congruence.
Qed.

Lemma cmp_le_trans a b c : cmp a b <> Gt -> cmp b c <> Gt -> cmp a c <> Gt.
Proof.
  intros Hab Hbc.
  destruct (cmp a b) eqn:E1; [ | | congruence].
  - apply cmp_eq in E1. subst. exact Hbc.
  - destruct (cmp b c) eqn:E2; [ | | congruence].
    + apply cmp_eq in E2. subst. rewrite E1. discriminate.
    + rewrite (cmp_lt_trans a b c E1 E2). discriminate.
Qed.

Lemma is_lt_asym a b :
  PyOrd.is_lt (cmp a b) = true -> PyOrd.is_lt (cmp b a) = false.
Proof.
  rewrite (cmp_antisym b a). destruct (cmp a b); simpl; congruence.
Qed.

Lemma is_lt_false_le a b : PyOrd.is_lt (cmp b a) = false <-> cmp a b <> Gt.
Proof.
  rewrite (cmp_antisym a b). destruct (cmp b a); simpl; split; congruence.
Qed.

End CmpFacts.

#[export] Instance Z_CmpOrder : CmpOrder Z.compare.
Proof.
  split.
  - apply Z.compare_refl.
  - intros a b. apply Z.compare_eq.
  - intros a b. apply Z.compare_antisym.
  - intros a b c. rewrite !Z.compare_lt_iff. lia.
Qed.

#[export] Instance ascii_CmpOrder : CmpOrder Ascii.compare.
Proof.
  split; unfold Ascii.compare.
  - intros a. apply N.compare_refl.
  - intros a b H. apply N.compare_eq in H.
    rewrite <- (ascii_N_embedding a), <- (ascii_N_embedding b). now f_equal.
  - intros a b. apply N.compare_antisym.
  - intros a b c. rewrite !N.compare_lt_iff. lia.
Qed.

#[export] Instance string_CmpOrder : CmpOrder String.compare.
Proof.
  split.
  - induction a as [|c s IH]; simpl; [reflexivity|].
    now rewrite (cmp_refl (cmp := Ascii.compare)).
  - apply String.compare_eq_iff.
  - apply String.compare_antisym.
  - induction a as [|x s IH]; intros [|y t] [|z u]; simpl; try congruence.
    destruct (Ascii.compare x y) eqn:Exy; try discriminate.
    + apply (cmp_eq (cmp := Ascii.compare)) in Exy. subst y.
      destruct (Ascii.compare x z) eqn:Exz; try congruence.
      intros H1 H2. exact (IH _ _ H1 H2).
    + intros _. destruct (Ascii.compare y z) eqn:Eyz; try discriminate.
      * apply (cmp_eq (cmp := Ascii.compare)) in Eyz. subst z. now rewrite Exy.
      * now rewrite (cmp_lt_trans (cmp := Ascii.compare) x y z Exy Eyz).
Qed.

#[export] Instance item_CmpOrder : CmpOrder PyOrd.item_compare.
Proof.
  split.
  - intros [n|s]; simpl; apply cmp_refl.
  - intros [n|s] [m|t]; simpl; try discriminate; intros H;
      apply cmp_eq in H; now subst.
  - intros [n|s] [m|t]; simpl; try reflexivity; apply cmp_antisym.
  - intros [n|s] [m|t] [p|u]; simpl; try congruence; apply cmp_lt_trans.
Qed.

#[export] Instance list_CmpOrder : CmpOrder PyOrd.list_compare.
Proof.
  split.
  - induction a as [|x l IH]; simpl; [reflexivity|].
    now rewrite (cmp_refl (cmp := PyOrd.item_compare)).
  - induction a as [|x l IH]; intros [|y m]; simpl; try discriminate;
      [reflexivity|].
    destruct (PyOrd.item_compare x y) eqn:E; try discriminate.
    intros H. apply cmp_eq in E. apply IH in H. now subst.
  - induction a as [|x l IH]; intros [|y m]; simpl; try reflexivity.
    rewrite (cmp_antisym (cmp := PyOrd.item_compare) x y).
    destruct (PyOrd.item_compare y x); simpl; auto.
  - induction a as [|x s IH]; intros [|y t] [|z u]; simpl; try congruence.
    destruct (PyOrd.item_compare x y) eqn:Exy; try discriminate.
    + apply cmp_eq in Exy. subst y.
      destruct (PyOrd.item_compare x z) eqn:Exz; try congruence.
      intros H1 H2. exact (IH _ _ H1 H2).
    + intros _. destruct (PyOrd.item_compare y z) eqn:Eyz; try discriminate.
      * apply cmp_eq in Eyz. subst z. now rewrite Exy.
      * now rewrite (cmp_lt_trans x y z Exy Eyz).
Qed.

#[export] Instance sortkey_CmpOrder : CmpOrder sortkey_compare.
Proof.
  split.
  - intros [[[a1 a2] a3] a4]. simpl.
    rewrite (cmp_refl (cmp := Z.compare) a1), (cmp_refl (cmp := String.compare) a2),
      (cmp_refl (cmp := Z.compare) a3).
    apply cmp_refl.
  - intros [[[a1 a2] a3] a4] [[[b1 b2] b3] b4]. simpl.
    destruct (a1 ?= b1) eqn:E1; try discriminate.
    destruct (String.compare a2 b2) eqn:E2; try discriminate.
    destruct (a3 ?= b3) eqn:E3; try discriminate.
    intros E4. apply cmp_eq in E1, E2, E3, E4. now subst.
  - intros [[[a1 a2] a3] a4] [[[b1 b2] b3] b4]. simpl.
    rewrite (cmp_antisym (cmp := Z.compare) a1 b1),
      (cmp_antisym (cmp := String.compare) a2 b2),
      (cmp_antisym (cmp := Z.compare) a3 b3),
      (cmp_antisym (cmp := PyOrd.list_compare) a4 b4).
    destruct (b1 ?= a1); simpl; auto.
    destruct (String.compare b2 a2); simpl; auto.
    destruct (b3 ?= a3); simpl; auto.
  - intros [[[a1 a2] a3] a4] [[[b1 b2] b3] b4] [[[c1 c2] c3] c4]. simpl.
    destruct (a1 ?= b1) eqn:E1; try discriminate;
      [apply cmp_eq in E1; subst b1 | ].
    2:{ intros _. destruct (b1 ?= c1) eqn:F1; try discriminate.
        - apply cmp_eq in F1. subst c1. now rewrite E1.
        - now rewrite (cmp_lt_trans a1 b1 c1 E1 F1). }
    destruct (a1 ?= c1) eqn:F1; try congruence.
    destruct (String.compare a2 b2) eqn:E2; try discriminate;
      [apply cmp_eq in E2; subst b2 | ].
    2:{ intros _. destruct (String.compare b2 c2) eqn:F2; try discriminate.
        - apply cmp_eq in F2. subst c2. now rewrite E2.
        - now rewrite (cmp_lt_trans a2 b2 c2 E2 F2). }
    destruct (String.compare a2 c2) eqn:F2; try congruence.
    destruct (a3 ?= b3) eqn:E3; try discriminate;
      [apply cmp_eq in E3; subst b3 | ].
    2:{ intros _. destruct (b3 ?= c3) eqn:F3; try discriminate.
        - apply cmp_eq in F3. subst c3. now rewrite E3.
        - now rewrite (cmp_lt_trans a3 b3 c3 E3 F3). }
    destruct (a3 ?= c3) eqn:F3; try congruence.
    apply cmp_lt_trans.
Qed.

(** ** The stable sort *)

Section SortFacts.
Context {A K : Type} (klt : K -> K -> bool).
Hypothesis klt_asym : forall a b, klt a b = true -> klt b a = false.
Hypothesis kle_trans :
  forall a b c, klt b a = false -> klt c b = false -> klt c a = false.

Local Notation "'kle'" := (key_le klt).

Lemma insert_key_perm (x : K * A) l : Permutation (x :: l) (insert_key klt x l).
Proof.
  induction l as [|y ys IH]; simpl; [reflexivity|].
  destruct (klt (fst y) (fst x)); [|reflexivity].
  rewrite perm_swap. now constructor.
Qed.

Lemma sort_decorated_perm (l : list (K * A)) :
  Permutation l (sort_decorated klt l).
Proof.
  induction l as [|x xs IH]; simpl; [constructor|].
  rewrite <- insert_key_perm. now constructor.
Qed.

Lemma insert_key_sorted (x : K * A) l :
  StronglySorted kle l -> StronglySorted kle (insert_key klt x l).
Proof.
  induction 1 as [|y ys Hs IH Hall]; simpl.
  - repeat constructor.
  - destruct (klt (fst y) (fst x)) eqn:E.
    + constructor; [exact IH|].
      rewrite <- insert_key_perm. constructor; [|exact Hall].
      unfold key_le. now apply klt_asym.
    + constructor; [now constructor|].
      constructor; [exact E|].
      rewrite Forall_forall in Hall |- *. intros z Hz.
      unfold key_le in *. eapply kle_trans; [exact E | now apply Hall].
Qed.

Lemma sort_decorated_sorted (l : list (K * A)) :
  StronglySorted kle (sort_decorated klt l).
Proof.
  induction l as [|x xs IH]; simpl; [constructor|].
  now apply insert_key_sorted.
Qed.

Lemma StronglySorted_map_snd (R : A -> A -> Prop) (d : list (K * A)) :
  (forall p q, In p d -> In q d -> kle p q -> R (snd p) (snd q)) ->
  StronglySorted kle d -> StronglySorted R (map snd d).
Proof.
  intros HR Hs. induction Hs as [|p d Hs IH Hall]; simpl; [constructor|].
  constructor.
  - apply IH. intros; apply HR; simpl; auto.
  - rewrite Forall_forall in *. intros b Hb.
    apply in_map_iff in Hb. destruct Hb as [q [<- Hq]].
    apply HR; simpl; auto.
Qed.

Lemma decorate_spec (key : A -> option K) l d :
  decorate key l = Some d ->
  map snd d = l /\ Forall (fun p => key (snd p) = Some (fst p)) d.
Proof.
  revert d. induction l as [|a l IH]; simpl; intros d H.
  - inversion H. split; constructor.
  - destruct (key a) eqn:Ek; [|discriminate].
    destruct (decorate key l) eqn:Ed; [|discriminate].
    inversion H; subst. destruct (IH _ eq_refl) as [Hm Hall].
    split; [simpl; now rewrite Hm|]. now constructor.
Qed.

Lemma decorate_total (key : A -> option K) l :
  Forall (fun a => key a <> None) l -> exists d, decorate key l = Some d.
Proof.
  induction 1 as [|a l Ha _ [d Hd]]; simpl; [now eexists|].
  destruct (key a); [|congruence]. rewrite Hd. now eexists.
Qed.

(** [sorted] with a key that does not raise: a permutation of the input
    in which no element has a key below the key of an earlier one. *)
Lemma py_sorted_partial_spec (key : A -> option K) l out :
  py_sorted_partial klt key l = Some out ->
  Permutation l out /\
  StronglySorted
    (fun a b => forall ka kb, key a = Some ka -> key b = Some kb ->
                              klt kb ka = false) out.
Proof.
  unfold py_sorted_partial. destruct (decorate key l) as [d|] eqn:Ed; [|discriminate].
  intros H. inversion H; subst out. clear H.
  destruct (decorate_spec _ _ _ Ed) as [Hl Hall].
  split.
  - rewrite <- Hl. apply Permutation_map, sort_decorated_perm.
  - apply StronglySorted_map_snd; [|apply sort_decorated_sorted].
    intros p q Hp Hq Hpq ka kb Ha Hb.
    assert (Hall' : Forall (fun p => key (snd p) = Some (fst p))
                      (sort_decorated klt d)).
    { rewrite <- sort_decorated_perm. exact Hall. }
    rewrite Forall_forall in Hall'.
    rewrite (Hall' _ Hp) in Ha. rewrite (Hall' _ Hq) in Hb.
    inversion Ha; inversion Hb; subst. exact Hpq.
Qed.

Lemma py_sorted_spec (key : A -> K) l :
  Permutation l (py_sorted klt key l) /\
  StronglySorted (fun a b => klt (key b) (key a) = false) (py_sorted klt key l).
Proof.
  unfold py_sorted. split.
  - rewrite <- sort_decorated_perm. rewrite map_map. simpl.
    now rewrite map_id.
  - apply StronglySorted_map_snd; [|apply sort_decorated_sorted].
    intros p q Hp Hq Hpq.
    assert (Hall : Forall (fun p => fst p = key (snd p))
                     (sort_decorated klt (map (fun a => (key a, a)) l))).
    { rewrite <- sort_decorated_perm. rewrite Forall_forall.
      intros r Hr. apply in_map_iff in Hr. now destruct Hr as [a [<- _]]. }
    rewrite Forall_forall in Hall.
    rewrite <- (Hall _ Hp), <- (Hall _ Hq). exact Hpq.
Qed.

End SortFacts.

Lemma StronglySorted_weaken {A : Type} (R S : A -> A -> Prop) l :
  (forall a b, R a b -> S a b) -> StronglySorted R l -> StronglySorted S l.
Proof.
  intros HRS. induction 1 as [|a l Hs IH Hall]; constructor; [exact IH|].
  eapply Forall_impl; [|exact Hall]. intros b. apply HRS.
Qed.

(** ** Natural sort *)

Lemma re_split_nonempty s : PyStr.re_split_digits s <> [].
Proof.
  destruct s as [|c s]; simpl; [discriminate|].
  destruct (PyStr.re_split_digits s) as [|txt rest]; [discriminate|].
  destruct (PyStr.is_digit c); [|discriminate].
  destruct txt; [destruct rest|]; discriminate.
Qed.

Lemma isdigit_all_digits s : PyStr.isdigit s = true -> PyStr.all_digits s = true.
Proof. destruct s; simpl; [discriminate|auto]. Qed.

Lemma runs_alternating s : alternating true (runs s) = true.
Proof.
  unfold runs. induction s as [|c s IH]; simpl; [reflexivity|].
  pose proof (re_split_nonempty s) as Hne.
  destruct (PyStr.re_split_digits s) as [|txt rest]; [congruence|].
  simpl in IH. apply andb_prop in IH. destruct IH as [Htxt Hrest].
  destruct (PyStr.is_digit c) eqn:Ec.
  - destruct txt as [|t0 txt].
    + destruct rest as [|d rest'].
      * simpl. now rewrite Ec.
      * simpl in Hrest. apply andb_prop in Hrest. destruct Hrest as [Hd Hr].
        simpl. rewrite Ec, (isdigit_all_digits _ Hd). exact Hr.
    + simpl. rewrite Ec. simpl. simpl in Htxt. now rewrite Htxt, Hrest.
  - simpl. now rewrite Ec, Htxt, Hrest.
Qed.

Lemma runs_join s : join (runs s) = s.
Proof.
  unfold runs. induction s as [|c s IH]; simpl; [reflexivity|].
  pose proof (re_split_nonempty s) as Hne.
  destruct (PyStr.re_split_digits s) as [|txt rest]; [congruence|].
  destruct (PyStr.is_digit c).
  - destruct txt as [|t0 txt].
    + destruct rest as [|d rest']; simpl in *; now rewrite IH.
    + simpl in *. now rewrite IH.
  - simpl in *. now rewrite IH.
Qed.

(** Digit runs are maximal: an empty run is the first or the last one. *)
Lemma runs_empty_ends s pre post :
  runs s = pre ++ "" :: post -> pre = [] \/ post = [].
Proof.
  unfold runs. revert pre post. induction s as [|c s IH]; simpl; intros pre post H.
  - destruct pre as [|p pre]; [now left|].
    inversion H. now destruct pre.
  - pose proof (re_split_nonempty s) as Hne.
    destruct (PyStr.re_split_digits s) as [|txt rest]; [congruence|].
    destruct pre as [|p pre]; [now left|]. right.
    destruct (PyStr.is_digit c).
    + destruct txt as [|t0 txt].
      * destruct rest as [|d rest'].
        -- inversion H as [[Hp H1]].
           destruct pre as [|q pre]; [discriminate|].
           inversion H1 as [[Hq H2]].
           destruct pre; [now inversion H2 | inversion H2; now destruct pre].
        -- inversion H as [[Hp H1]].
           destruct pre as [|q pre]; [discriminate|].
           inversion H1 as [[Hq H2]].
           destruct (IH ("" :: d :: pre) post) as [E|E];
             [simpl; now rewrite H2 | discriminate | exact E].
      * inversion H as [[Hp H1]].
        destruct pre as [|q pre]; [discriminate|].
        inversion H1 as [[Hq H2]].
        destruct (IH pre post H2) as [E|E]; [|exact E].
        subst pre. discriminate.
    + inversion H as [[Hp H1]].
      destruct (IH (txt :: pre) post) as [E|E];
        [simpl; now rewrite H1 | discriminate | exact E].
Qed.

Lemma convert_text r : PyStr.no_digits r = true -> convert r = PyOrd.IStr (PyStr.lower r).
Proof.
  unfold convert. destruct r as [|c r]; simpl; [reflexivity|].
  intros H. apply andb_prop in H. destruct H as [Hc _].
  destruct (PyStr.is_digit c); [discriminate|reflexivity].
Qed.

Lemma convert_digits r : PyStr.isdigit r = true -> convert r = PyOrd.IInt (PyStr.int r).
Proof. unfold convert. now intros ->. Qed.

(** The keys the program compares order references as the runs do. *)
Lemma key_compare_runs t r1 r2 :
  alternating t r1 = true -> alternating t r2 = true ->
  PyOrd.list_compare (map convert r1) (map convert r2) = runs_compare t r1 r2.
Proof.
  revert t r2. induction r1 as [|x xs IH]; intros t [|y ys]; simpl; try reflexivity.
  intros H1 H2. apply andb_prop in H1, H2.
  destruct H1 as [Hx Hxs], H2 as [Hy Hys].
  destruct t.
  - rewrite (convert_text _ Hx), (convert_text _ Hy). simpl.
    destruct (String.compare (PyStr.lower x) (PyStr.lower y)); auto.
  - rewrite (convert_digits _ Hx), (convert_digits _ Hy). simpl.
    destruct (PyStr.int x ?= PyStr.int y); auto.
Qed.

Lemma alphanum_key_compare a b :
  PyOrd.list_compare (alphanum_key a) (alphanum_key b)
  = runs_compare true (runs a) (runs b).
Proof. apply key_compare_runs; apply runs_alternating. Qed.

Lemma list_ltb_asym a b :
  PyOrd.list_ltb a b = true -> PyOrd.list_ltb b a = false.
Proof. apply is_lt_asym. Qed.

Lemma list_ltb_le_trans a b c :
  PyOrd.list_ltb b a = false -> PyOrd.list_ltb c b = false ->
  PyOrd.list_ltb c a = false.
Proof.
  unfold PyOrd.list_ltb. rewrite !is_lt_false_le. apply cmp_le_trans.
Qed.

(** C5. [natural_sort] returns a permutation of its input sorted by the
    order that splits each reference into alternating text and digit runs
    (the runs concatenate to the reference, digit runs are maximal),
    compares digit runs as integers and text runs as lower-case text, run
    by run, a proper prefix first; and it sorts [R10, R2, R1] to
    [R1, R2, R10]. *)
Theorem natural_sort_orders_by_runs :
  (forall s, join (runs s) = s /\ alternating true (runs s) = true /\
             (forall pre post, runs s = pre ++ "" :: post -> pre = [] \/ post = [])) /\
  (forall l, Permutation l (natural_sort l) /\
             StronglySorted natural_le (natural_sort l)) /\
  natural_sort ["R10"; "R2"; "R1"] = ["R1"; "R2"; "R10"].
Proof.
  split; [|split].
  - intros s. split; [apply runs_join|]. split; [apply runs_alternating|].
    apply runs_empty_ends.
  - intros l.
    destruct (py_sorted_spec PyOrd.list_ltb list_ltb_asym list_ltb_le_trans
                alphanum_key l) as [Hp Hs].
    split; [exact Hp|].
    unfold natural_sort. eapply StronglySorted_weaken; [|exact Hs].
    intros a b H. unfold natural_le. rewrite <- alphanum_key_compare.
    apply (proj1 (is_lt_false_le _ _)). exact H.
  - reflexivity.
Qed.

(** ** Dictionaries *)

Section DictFacts.
Context {K V : Type} (eqb : K -> K -> bool).
Hypothesis eqb_eq : forall a b, eqb a b = true <-> a = b.

Lemma eqb_refl_true a : eqb a a = true.
Proof. now apply eqb_eq. Qed.

Lemma eqb_neq_false a b : a <> b -> eqb a b = false.
Proof.
  intros H. destruct (eqb a b) eqn:E; [|reflexivity].
  apply eqb_eq in E. contradiction.
Qed.

Lemma dict_get_set_same k (v : V) d : dict_get eqb k (dict_set eqb k v d) = Some v.
Proof.
  induction d as [|[k' v'] d IH]; simpl.
  - now rewrite eqb_refl_true.
  - destruct (eqb k k') eqn:E; simpl; rewrite E; [reflexivity|exact IH].
Qed.

Lemma dict_get_set_other k k' (v : V) d :
  k <> k' -> dict_get eqb k' (dict_set eqb k v d) = dict_get eqb k' d.
Proof.
  intros Hne. induction d as [|[k0 v0] d IH]; simpl.
  - rewrite eqb_neq_false; auto.
  - destruct (eqb k k0) eqn:E; simpl.
    + apply eqb_eq in E. subst k0. rewrite eqb_neq_false; auto.
    + destruct (eqb k' k0); [reflexivity|exact IH].
Qed.

Lemma dict_get_None_notin k (d : dict K V) :
  dict_get eqb k d = None <-> ~ In k (dict_keys d).
Proof.
  induction d as [|[k0 v0] d IH]; simpl; [tauto|].
  destruct (eqb k k0) eqn:E.
  - apply eqb_eq in E. subst. split; [discriminate|]. intros H. exfalso. auto.
  - rewrite IH. split; [|tauto]. intros H [H1|H1]; [|tauto].
    subst. rewrite eqb_refl_true in E. discriminate.
Qed.

Lemma dict_set_new k (v : V) d :
  dict_get eqb k d = None -> dict_set eqb k v d = d ++ [(k, v)].
Proof.
  induction d as [|[k0 v0] d IH]; simpl; [reflexivity|].
  destruct (eqb k k0); [discriminate|]. intros H. now rewrite IH.
Qed.

Lemma dict_set_keys_old k (v v0 : V) d :
  dict_get eqb k d = Some v0 -> dict_keys (dict_set eqb k v d) = dict_keys d.
Proof.
  induction d as [|[k1 v1] d IH]; simpl; [discriminate|].
  destruct (eqb k k1); simpl; [reflexivity|]. intros H. now rewrite IH.
Qed.

Lemma dict_set_NoDup k (v : V) d :
  NoDup (dict_keys d) -> NoDup (dict_keys (dict_set eqb k v d)).
Proof.
  intros Hnd. destruct (dict_get eqb k d) as [v0|] eqn:E.
  - now rewrite (dict_set_keys_old _ _ _ _ E).
  - rewrite (dict_set_new _ _ _ E). unfold dict_keys. rewrite map_app. simpl.
    apply dict_get_None_notin in E.
    apply Permutation_NoDup with (l := k :: dict_keys d).
    + apply Permutation_cons_append.
    + now constructor.
Qed.

Lemma dict_get_In k (v : V) d :
  NoDup (dict_keys d) -> In (k, v) d -> dict_get eqb k d = Some v.
Proof.
  induction d as [|[k0 v0] d IH]; simpl; [tauto|].
  intros Hnd [H|H].
  - inversion H; subst. now rewrite eqb_refl_true.
  - inversion Hnd as [|? ? Hnotin Hnd']; subst.
    destruct (eqb k k0) eqn:E.
    + apply eqb_eq in E. subst. exfalso. apply Hnotin.
      change k0 with (fst (k0, v)). now apply in_map.
    + now apply IH.
Qed.

Lemma dict_get_Some_In k (v : V) d : dict_get eqb k d = Some v -> In (k, v) d.
Proof.
  induction d as [|[k0 v0] d IH]; simpl; [discriminate|].
  destruct (eqb k k0) eqn:E.
  - apply eqb_eq in E. intros H. inversion H; subst. now left.
  - intros H. right. now apply IH.
Qed.

End DictFacts.

Lemma key_eqb_eq a b : key_eqb a b = true <-> a = b.
Proof.
  destruct a as [[a1 a2] a3], b as [[b1 b2] b3]. simpl.
  rewrite !andb_true_iff, !String.eqb_eq. split.
  - intros [[-> ->] ->]. reflexivity.
  - intros H. inversion H. auto.
Qed.

(** ** Grouping *)

Lemma str_of_int_not_virtual a : String.eqb (str_of_int a) "Virtual" = false.
Proof.
  unfold str_of_int. destruct a as [|p|p]; simpl; try reflexivity.
  destruct (Pos.to_uint p); reflexivity.
Qed.

Lemma attr_label_virtual a : String.eqb (attr_label a) "Virtual" = (a =? 2).
Proof.
  unfold attr_label.
  change attr_dict with [(0, "Normal"); (1, "Normal+Insert"); (2, "Virtual")].
  simpl.
  destruct (a =? 0) eqn:E0; [apply Z.eqb_eq in E0; now subst|].
  destruct (a =? 1) eqn:E1; [apply Z.eqb_eq in E1; now subst|].
  destruct (a =? 2) eqn:E2; [reflexivity|].
  apply str_of_int_not_virtual.
Qed.

Section BomFacts.
Variable componentValue : string -> string.

Local Notation "'key'" := (string * string * string)%type.
Local Notation "'groups'" := (dict (string * string * string) (string * list string)).
Local Notation "'gkey'" := (group_key componentValue).

Lemma group_step_filtered fl (d : groups) m :
  group_step componentValue fl d m
  = if filtered_out fl m then d else group_step componentValue None d m.
Proof. unfold group_step. simpl. now destruct (filtered_out fl m). Qed.

Lemma fold_group_step_filter fl ms (d : groups) :
  fold_left (group_step componentValue fl) ms d
  = fold_left (group_step componentValue None)
      (filter (fun m => negb (filtered_out fl m)) ms) d.
Proof.
  revert d. induction ms as [|m ms IH]; intros d; simpl; [reflexivity|].
  rewrite group_step_filtered. destruct (filtered_out fl m); simpl; apply IH.
Qed.

Lemma members_snoc k ms m :
  members componentValue k (ms ++ [m])
  = members componentValue k ms ++ (if key_eqb (gkey m) k then [m] else []).
Proof. unfold members. rewrite filter_app. reflexivity. Qed.

Local Notation "'groups_inv'" := (groups_invariant componentValue).

Lemma group_step_inv d done m :
  groups_inv d done ->
  groups_inv (group_step componentValue None d m) (done ++ [m]).
Proof.
  intros [Hnd Hget]. unfold group_step. simpl.
  assert (Hnd' : forall x, NoDup (dict_keys (dict_set key_eqb (gkey m) x d)))
    by (intros x; now apply dict_set_NoDup; [apply key_eqb_eq|]).
  assert (Hall : forall x,
    x = match members componentValue (gkey m) done with
        | [] => (Footprint.GetValue m, [Footprint.GetReference m])
        | m0 :: _ => (Footprint.GetValue m0,
                      map Footprint.GetReference
                        (members componentValue (gkey m) done)
                      ++ [Footprint.GetReference m])
        end ->
    forall k, dict_get key_eqb k (dict_set key_eqb (gkey m) x d)
              = group_of componentValue k (done ++ [m])).
  { intros x Hx k. unfold group_of. rewrite members_snoc.
    destruct (key_eqb (gkey m) k) eqn:E.
    - apply key_eqb_eq in E. subst k.
      rewrite (dict_get_set_same _ key_eqb_eq). subst x.
      destruct (members componentValue (gkey m) done) as [|m0 l]; simpl;
        [reflexivity|].
      rewrite map_app. reflexivity.
    - rewrite (dict_get_set_other _ key_eqb_eq).
      + rewrite app_nil_r. apply Hget.
      + intros Hk. rewrite Hk, (proj2 (key_eqb_eq k k) eq_refl) in E.
        discriminate. }
  pose proof (Hget (gkey m)) as Hm. unfold group_of in Hm.
  destruct (dict_get key_eqb (gkey m) d) as [[v rs]|] eqn:Eg.
  - split; [apply Hnd'|]. apply Hall.
    destruct (members componentValue (gkey m) done); [discriminate|].
    now inversion Hm.
  - split; [apply Hnd'|]. apply Hall.
    destruct (members componentValue (gkey m) done); [reflexivity|discriminate].
Qed.

Lemma fold_group_step_inv ms d done :
  groups_inv d done ->
  groups_inv (fold_left (group_step componentValue None) ms d) (done ++ ms).
Proof.
  revert d done. induction ms as [|m ms IH]; intros d done H; simpl.
  - now rewrite app_nil_r.
  - replace (done ++ m :: ms) with ((done ++ [m]) ++ ms)
      by (rewrite <- app_assoc; reflexivity).
    apply IH. now apply group_step_inv.
Qed.

Lemma held_set_old P k v rs r (d : groups) :
  dict_get key_eqb k d = Some (v, rs) ->
  Permutation (flat_map (held P) (dict_set key_eqb k (v, rs ++ [r]) d))
              (flat_map (held P) d ++ (if P k then [r] else [])).
Proof.
  induction d as [|[k0 [v0 rs0]] d IH]; simpl; [discriminate|].
  destruct (key_eqb k k0) eqn:E.
  - intros H. inversion H; subst v0 rs0. apply key_eqb_eq in E. subst k0.
    simpl. unfold held at 1 3. simpl. destruct (P k); simpl.
    + rewrite <- !app_assoc. apply Permutation_app_head.
      apply Permutation_app_comm.
    + now rewrite app_nil_r.
  - intros H. simpl. rewrite (IH H). now rewrite app_assoc.
Qed.

Lemma group_step_held P d m :
  Permutation (flat_map (held P) (group_step componentValue None d m))
              (flat_map (held P) d ++
               (if P (gkey m) then [Footprint.GetReference m] else [])).
Proof.
  unfold group_step. simpl.
  destruct (dict_get key_eqb (gkey m) d) as [[v rs]|] eqn:Eg.
  - now apply held_set_old.
  - rewrite (dict_set_new _ _ _ _ Eg). rewrite flat_map_app. simpl.
    unfold held at 2. simpl. now rewrite app_nil_r.
Qed.

Lemma fold_group_step_held P ms d :
  Permutation
    (flat_map (held P) (fold_left (group_step componentValue None) ms d))
    (flat_map (held P) d ++
     map Footprint.GetReference (filter (fun m => P (gkey m)) ms)).
Proof.
  revert d. induction ms as [|m ms IH]; intros d; simpl.
  - now rewrite app_nil_r.
  - rewrite IH, group_step_held, <- app_assoc.
    apply Permutation_app_head. now destruct (P (gkey m)).
Qed.

Lemma bom_table_refs (d : groups) :
  Permutation (flat_map refs (flat_map bom_line d))
              (flat_map (held not_virtual_key) d).
Proof.
  induction d as [|[[[nv fp] attr] [v rs]] d IH]; simpl; [constructor|].
  rewrite flat_map_app. apply Permutation_app; [|exact IH].
  unfold held, not_virtual_key. simpl.
  destruct (String.eqb attr "Virtual"); simpl; [constructor|].
  rewrite app_nil_r. symmetry.
  apply (py_sorted_spec PyOrd.list_ltb list_ltb_asym list_ltb_le_trans).
Qed.

Lemma part_groups_inv pcb fl :
  groups_inv (part_groups componentValue pcb fl)
    (filter (fun m => negb (filtered_out fl m)) (Board.GetModules pcb)).
Proof.
  unfold part_groups. rewrite fold_group_step_filter.
  apply (fold_group_step_inv _ [] []). split; [constructor|].
  intros k. reflexivity.
Qed.

(** Every line of the table comes from one group that is not virtual and
    is not empty. *)
Lemma bom_table_rows pcb fl row :
  In row (bom_table componentValue pcb fl) ->
  exists nv attr rs,
    String.eqb attr "Virtual" = false /\
    dict_get key_eqb (nv, footprint row, attr) (part_groups componentValue pcb fl)
      = Some (value row, rs) /\
    rs <> [] /\
    qty row = Z.of_nat (List.length rs) /\
    refs row = natural_sort rs /\
    rs = map Footprint.GetReference
           (members componentValue (nv, footprint row, attr)
              (filter (fun m => negb (filtered_out fl m)) (Board.GetModules pcb))).
Proof.
  unfold bom_table. intros H. apply in_flat_map in H.
  destruct H as [[[[nv fp] attr] [v rs]] [Hin Hrow]]. simpl in Hrow.
  destruct (String.eqb attr "Virtual") eqn:Ea; [contradiction|].
  destruct Hrow as [<-|[]]. simpl.
  destruct (part_groups_inv pcb fl) as [Hnd Hget].
  pose proof (dict_get_In _ key_eqb_eq _ _ _ Hnd Hin) as Hg.
  exists nv, attr, rs. split; [exact Ea|]. split; [exact Hg|].
  rewrite Hget in Hg. unfold group_of in Hg.
  destruct (members componentValue (nv, fp, attr) _) as [|m0 l] eqn:Em;
    [discriminate|].
  inversion Hg; subst. repeat split; try reflexivity. discriminate.
Qed.

Lemma natural_sort_nonempty rs : rs <> [] -> natural_sort rs <> [].
Proof.
  intros Hne Hs.
  pose proof (proj1 (py_sorted_spec PyOrd.list_ltb list_ltb_asym
                       list_ltb_le_trans alphanum_key rs)) as Hp.
  fold (natural_sort rs) in Hp. rewrite Hs in Hp.
  apply Permutation_sym, Permutation_nil in Hp. contradiction.
Qed.

(** [sort_func] never raises on a line of the table. *)
Lemma generate_bom_returns pcb fl :
  exists table, generate_bom componentValue pcb fl = Some table.
Proof.
  unfold generate_bom, py_sorted_partial.
  destruct (decorate_total sort_func (bom_table componentValue pcb fl)) as [d Hd].
  - rewrite Forall_forall. intros row Hrow.
    destruct (bom_table_rows _ _ _ Hrow) as (nv & attr & rs & _ & _ & Hne & _ & Hr & _).
    unfold sort_func. rewrite Hr.
    pose proof (natural_sort_nonempty rs Hne).
    destruct (natural_sort rs); [contradiction|discriminate].
  - rewrite Hd. now eexists.
Qed.

End BomFacts.

Lemma StronglySorted_weaken_in {A : Type} (R S : A -> A -> Prop) l :
  (forall a b, In a l -> In b l -> R a b -> S a b) ->
  StronglySorted R l -> StronglySorted S l.
Proof.
  intros HRS Hs. induction Hs as [|a l Hs IH Hall]; constructor.
  - apply IH. intros; apply HRS; simpl; auto.
  - rewrite Forall_forall in *. intros b Hb. apply HRS; simpl; auto.
Qed.

Lemma sortkey_ltb_asym a b : sortkey_ltb a b = true -> sortkey_ltb b a = false.
Proof. apply is_lt_asym. Qed.

Lemma sortkey_ltb_le_trans a b c :
  sortkey_ltb b a = false -> sortkey_ltb c b = false -> sortkey_ltb c a = false.
Proof.
  unfold sortkey_ltb. rewrite !is_lt_false_le. apply cmp_le_trans.
Qed.

Lemma filter_all {A : Type} (l : list A) : filter (fun _ => true) l = l.
Proof. induction l; simpl; congruence. Qed.

Lemma ref_ord_rank p : ref_ord p = category_rank p.
Proof.
  unfold ref_ord, category_rank.
  let d := eval vm_compute in ref_ord_dict in change ref_ord_dict with d.
  cbn [dict_get].
  repeat (destruct (String.eqb p _); [reflexivity|]).
  reflexivity.
Qed.

(** The tuple order of [sort_func] is the priority chain. *)
Lemma sort_func_priority a b ka kb :
  sort_func a = Some ka -> sort_func b = Some kb ->
  sortkey_ltb kb ka = false -> priority_le a b.
Proof.
  unfold sort_func, priority_le, row_rank, first_ref.
  destruct (refs a) as [|ra ta]; [discriminate|].
  destruct (refs b) as [|rb tb]; [discriminate|].
  intros Ha Hb Hlt. inversion Ha; inversion Hb; subst ka kb. clear Ha Hb.
  unfold sortkey_ltb in Hlt. rewrite is_lt_false_le in Hlt. simpl in Hlt.
  rewrite <- !ref_ord_rank.
  destruct (ref_ord (PyStr.upper_prefix ra) ?= ref_ord (PyStr.upper_prefix rb)) eqn:E1.
  - apply Z.compare_eq in E1. right. split; [exact E1|].
    destruct (String.compare (footprint a) (footprint b)) eqn:E2.
    + apply cmp_eq in E2. right. split; [exact E2|].
      destruct (- qty a ?= - qty b) eqn:E3.
      * apply Z.compare_eq in E3. right. split; [lia|].
        unfold natural_le. now rewrite <- alphanum_key_compare.
      * rewrite Z.compare_lt_iff in E3. left. lia.
      * congruence.
    + now left.
    + congruence.
  - rewrite Z.compare_lt_iff in E1. now left.
  - congruence.
Qed.

(** C1. [generate_bom] returns a table for the unrestricted BOM; every line
    comes from a group of the grouping dictionary whose attribute is not
    [Virtual], its quantity is the number of references accumulated under
    that group's key, which are the references of the footprints carrying
    the key; and the references of all lines together are, counted with
    multiplicity, the references of the footprints that are not virtual. *)
Theorem generate_bom_quantities (componentValue : string -> string) (pcb : Board.t) :
  exists table,
    generate_bom componentValue pcb None = Some table /\
    (forall row, In row table ->
       exists nv attr rs,
         attr <> "Virtual" /\
         dict_get key_eqb (nv, footprint row, attr)
           (part_groups componentValue pcb None) = Some (value row, rs) /\
         qty row = Z.of_nat (List.length rs) /\
         refs row = natural_sort rs /\
         rs = map Footprint.GetReference
                (members componentValue (nv, footprint row, attr)
                   (Board.GetModules pcb))) /\
    Permutation (flat_map refs table)
      (map Footprint.GetReference
         (filter (fun m => negb (is_virtual m)) (Board.GetModules pcb))).
Proof.
  destruct (generate_bom_returns componentValue pcb None) as [table Ht].
  exists table. split; [exact Ht|].
  destruct (py_sorted_partial_spec sortkey_ltb sortkey_ltb_asym
              sortkey_ltb_le_trans _ _ _ Ht) as [Hperm _].
  split.
  - intros row Hrow. apply Permutation_sym in Hperm.
    pose proof (Permutation_in _ Hperm Hrow) as Hin.
    destruct (bom_table_rows _ _ _ _ Hin)
      as (nv & attr & rs & Ha & Hg & _ & Hq & Hr & Hm).
    exists nv, attr, rs. simpl in Hm. rewrite filter_all in Hm.
    repeat split; auto.
    intros ->. discriminate.
  - rewrite <- (Permutation_flat_map refs Hperm).
    unfold bom_table. rewrite bom_table_refs.
    unfold part_groups. rewrite fold_group_step_held. simpl.
    apply Permutation_map. erewrite filter_ext; [reflexivity|].
    intros m. unfold not_virtual_key, group_key, is_virtual. simpl.
    now rewrite attr_label_virtual.
Qed.

(** C2. The table [generate_bom] returns, for any layer filter, is sorted
    by the priority chain: the rank of the capital-letter prefix of the
    first reference (the ranks of [sort_func]'s table are the listed ones,
    1000 otherwise), then the footprint name ascending, then the quantity
    descending, then the natural order of the first reference. *)
Theorem generate_bom_row_order (componentValue : string -> string)
    (pcb : Board.t) (filter_layer : option Z) :
  (forall prefix, ref_ord prefix = category_rank prefix) /\
  exists table,
    generate_bom componentValue pcb filter_layer = Some table /\
    StronglySorted priority_le table.
Proof.
  split; [apply ref_ord_rank|].
  destruct (generate_bom_returns componentValue pcb filter_layer) as [table Ht].
  exists table. split; [exact Ht|].
  destruct (py_sorted_partial_spec sortkey_ltb sortkey_ltb_asym
              sortkey_ltb_le_trans _ _ _ Ht) as [Hperm Hs].
  eapply StronglySorted_weaken_in; [|exact Hs].
  intros a b Ha Hb HR.
  assert (Hsome : forall r, In r table -> exists k, sort_func r = Some k).
  { intros r Hr. apply Permutation_sym in Hperm.
    pose proof (Permutation_in _ Hperm Hr) as Hin.
    destruct (bom_table_rows _ _ _ _ Hin)
      as (nv & attr & rs & _ & _ & Hne & _ & Hrefs & _).
    unfold sort_func. rewrite Hrefs.
    pose proof (natural_sort_nonempty rs Hne).
    destruct (natural_sort rs); [contradiction|now eexists]. }
  destruct (Hsome a Ha) as [ka Hka]. destruct (Hsome b Hb) as [kb Hkb].
  exact (sort_func_priority a b ka kb Hka Hkb (HR ka kb Hka Hkb)).
Qed.

(** A list of lines with references sorts to a table in the priority
    order. *)
Lemma sorted_rows (rows : list bom_row) :
  Forall (fun r => refs r <> []) rows ->
  exists table,
    py_sorted_partial sortkey_ltb sort_func rows = Some table /\
    Permutation rows table /\
    StronglySorted priority_le table.
Proof.
  intros Hne.
  assert (Hsome : forall r, refs r <> [] -> exists k, sort_func r = Some k).
  { intros r Hr. unfold sort_func. destruct (refs r); [contradiction|now eexists]. }
  unfold py_sorted_partial.
  destruct (decorate_total sort_func rows) as [d Hd].
  { eapply Forall_impl; [|exact Hne]. intros r Hr.
    destruct (Hsome r Hr) as [k ->]. discriminate. }
  assert (Ht : py_sorted_partial sortkey_ltb sort_func rows
               = Some (map snd (sort_decorated sortkey_ltb d)))
    by (unfold py_sorted_partial; now rewrite Hd).
  rewrite Hd. eexists. split; [reflexivity|].
  destruct (py_sorted_partial_spec sortkey_ltb sortkey_ltb_asym
              sortkey_ltb_le_trans _ _ _ Ht) as [Hperm Hs].
  split; [exact Hperm|].
  eapply StronglySorted_weaken_in; [|exact Hs].
  intros a b Ha Hb HR. rewrite Forall_forall in Hne.
  apply Permutation_sym in Hperm.
  destruct (Hsome a (Hne _ (Permutation_in _ Hperm Ha))) as [ka Hka].
  destruct (Hsome b (Hne _ (Permutation_in _ Hperm Hb))) as [kb Hkb].
  exact (sort_func_priority a b ka kb Hka Hkb (HR ka kb Hka Hkb)).
Qed.

(** X23. The order in which the groups are iterated does not matter: from
    any order the table has the same lines and is sorted by the priority
    chain. *)
Lemma bom_any_iteration_order (componentValue : string -> string)
    (pcb : Board.t) (filter_layer : option Z)
    (items : list ((string * string * string) * (string * list string))) :
  Permutation items (part_groups componentValue pcb filter_layer) ->
  exists table,
    py_sorted_partial sortkey_ltb sort_func (flat_map bom_line items)
    = Some table /\
    Permutation table (bom_table componentValue pcb filter_layer) /\
    StronglySorted priority_le table.
Proof.
  intros Hitems.
  pose proof (Permutation_flat_map bom_line Hitems) as Hrows.
  fold (bom_table componentValue pcb filter_layer) in Hrows.
  destruct (sorted_rows (flat_map bom_line items)) as (table & Ht & Hp & Hs).
  - rewrite Forall_forall. intros r Hr.
    pose proof (Permutation_in _ Hrows Hr) as Hin.
    destruct (bom_table_rows _ _ _ _ Hin)
      as (nv & attr & rs & _ & _ & Hne & _ & Hrefs & _).
    rewrite Hrefs. now apply natural_sort_nonempty.
  - exists table. split; [exact Ht|]. split; [|exact Hs].
    now rewrite <- Hp.
Qed.

(** ** Shapes *)

Lemma exact_scale_mono x y : x <= y ->
  (fmul (of_int x) lit_0_1 <= fmul (of_int y) lit_0_1)%Q.
Proof.
  intros H. simpl. unfold Qle, Qmult, inject_Z. simpl. lia.
Qed.

Lemma zrange_In v lo n : In v (zrange lo n) <-> lo <= v < lo + Z.of_nat n.
Proof.
  revert lo. induction n as [|n IH]; intros lo.
  - simpl. lia.
  - cbn [zrange In]. rewrite IH. lia.
Qed.

Lemma pairwise_leb_spec l :
  pairwise_leb l = true ->
  StronglySorted (fun x y => PrimFloat.leb x y = true) l /\
  Forall (fun x => PrimFloat.leb x x = true) l.
Proof.
  induction l as [|x t IH]; [split; constructor|].
  cbn [pairwise_leb forallb]. rewrite !andb_true_iff.
  intros [[Hx Ht] Hp]. destruct (IH Hp) as [Hs Hr].
  split; constructor; auto.
  now rewrite forallb_forall, <- Forall_forall in Ht.
Qed.

Lemma zrange_sorted (R : float -> float -> Prop) (f : Z -> float) n lo :
  StronglySorted R (map f (zrange lo n)) ->
  Forall (fun x => R x x) (map f (zrange lo n)) ->
  forall u v, lo <= u <= v -> v < lo + Z.of_nat n -> R (f u) (f v).
Proof.
  revert lo. induction n as [|n IH]; intros lo Hs Hr u v Huv Hv; [lia|].
  cbn [zrange map] in Hs, Hr.
  inversion Hs as [|? ? Hs' Hall]; subst. inversion Hr as [|? ? Hlo Hr']; subst.
  destruct (Z.eq_dec u lo) as [->|Hne].
  - destruct (Z.eq_dec v lo) as [->|Hne]; [exact Hlo|].
    rewrite Forall_forall in Hall. apply Hall. apply in_map.
    apply zrange_In. lia.
  - apply (IH (lo + 1)); auto; lia.
Qed.

(** Multiplication by [0.1] in binary64 keeps the order of the angles of
    two turns. *)
Lemma tenth_b64_mono u v :
  -7200 <= u -> u <= v -> v <= 7200 ->
  PrimFloat.leb (tenth_b64 u) (tenth_b64 v) = true.
Proof.
  intros Hu Huv Hv.
  assert (Hp : pairwise_leb (map tenth_b64 two_turns) = true)
    by (vm_compute; reflexivity).
  destruct (pairwise_leb_spec _ Hp) as [Hs Hr].
  apply (zrange_sorted (fun x y => PrimFloat.leb x y = true) tenth_b64
           (Z.to_nat 14401) (-7200) Hs Hr); lia.
Qed.

(** C3. A primitive whose shape code resolves to [arc] is parsed to an arc
    record whose start and end angles are the native start angle times 0.1
    and the native start plus sweep times 0.1, exchanged when the sweep is
    negative.  The start angle is at most the end angle: in exact
    arithmetic for all native angles, and in binary64 for a native start
    and sweep of at most a full turn (3600 tenths of a degree) either
    way. *)
Theorem arc_angles_ordered (K : pcbnew_consts) (d : Drawing.t) :
  dict_get Z.eqb (Drawing.GetShape d) (shape_dict K) = Some "arc" ->
  (forall (F : Type) (FL : PyFloat F),
     let a1 := fmul (of_int (Drawing.GetArcAngleStart d)) lit_0_1 in
     let a2 := fmul (of_int (Drawing.GetArcAngleStart d + Drawing.GetAngle d))
                 lit_0_1 in
     parse_draw_segment K d
     = Some (Arc (normalize (Drawing.GetStart d)) (scale (Drawing.GetRadius d))
               (if Drawing.GetAngle d <? 0 then a2 else a1)
               (if Drawing.GetAngle d <? 0 then a1 else a2)
               (scale (Drawing.GetWidth d)))) /\
  (forall start r sa ea w,
     parse_draw_segment (F := Q) K d = Some (Arc start r sa ea w) ->
     (sa <= ea)%Q) /\
  (forall start r sa ea w,
     -3600 <= Drawing.GetArcAngleStart d <= 3600 ->
     -3600 <= Drawing.GetAngle d <= 3600 ->
     parse_draw_segment (F := float) K d = Some (Arc start r sa ea w) ->
     PrimFloat.leb sa ea = true).
Proof.
  intros Hshape.
  assert (Hgen : forall (F : Type) (FL : PyFloat F),
     parse_draw_segment K d
     = Some (Arc (normalize (Drawing.GetStart d)) (scale (Drawing.GetRadius d))
               (if Drawing.GetAngle d <? 0
                then fmul (of_int (Drawing.GetArcAngleStart d + Drawing.GetAngle d)) lit_0_1
                else fmul (of_int (Drawing.GetArcAngleStart d)) lit_0_1)
               (if Drawing.GetAngle d <? 0
                then fmul (of_int (Drawing.GetArcAngleStart d)) lit_0_1
                else fmul (of_int (Drawing.GetArcAngleStart d + Drawing.GetAngle d)) lit_0_1)
               (scale (Drawing.GetWidth d)))).
  { intros F FL. unfold parse_draw_segment. rewrite Hshape. simpl.
    now destruct (Drawing.GetAngle d <? 0). }
  split; [exact Hgen|]. split.
  - intros start r sa ea w H. rewrite (Hgen Q exact) in H.
    inversion H; subst. clear H.
    destruct (Drawing.GetAngle d <? 0) eqn:E.
    + apply Z.ltb_lt in E. apply exact_scale_mono. lia.
    + apply Z.ltb_ge in E. apply exact_scale_mono. lia.
  - intros start r sa ea w Hs Ha H. rewrite (Hgen float binary64) in H.
    inversion H; subst. clear H.
    destruct (Drawing.GetAngle d <? 0) eqn:E.
    + apply Z.ltb_lt in E. apply tenth_b64_mono; lia.
    + apply Z.ltb_ge in E. apply tenth_b64_mono; lia.
Qed.

Lemma arc_angles_ordered_witness :
  dict_get Z.eqb (Drawing.GetShape sample_arc) (shape_dict kicad5) = Some "arc" /\
  parse_draw_segment (F := Q) kicad5 sample_arc
  = Some (Arc (normalize (0, 0)) (scale 1000000)
            (fmul (of_int (-900)) lit_0_1) (fmul (of_int 0) lit_0_1)
            (scale 150000)).
Proof.
  split; [reflexivity|].
  exact (proj1 (arc_angles_ordered kicad5 sample_arc eq_refl) Q exact).
Defined.

(** The arc of the specification's example in binary64: a sweep of -900
    from 0 gives the angles -90 and 0. *)
Example arc_example_binary64 :
  parse_draw_segment (F := float) kicad5 sample_arc
  = Some (Arc (0, 0)%float 1%float (-90)%float 0%float
            (scale (F := float) 150000)).
Proof. vm_compute. reflexivity. Qed.

(** C4. The polygon of a footprint turned by 900 tenths of a degree: the
    record's angle is the one-element tuple [(90.0,)], not the number
    [90.0]; the assignment in [parse_draw_segment] ends in a comma. *)
Theorem polygon_angle_is_tuple :
  parse_draw_segment (F := float) kicad5 sample_polygon
  = Some (Polygon (0, 0)%float (VTuple [90%float])
            [[(0, 0); (1, 0); (0, 1)]%float]) /\
  parse_draw_segment (F := float) kicad5 sample_polygon
  <> Some (Polygon (0, 0)%float (VFloat 90%float)
             [[(0, 0); (1, 0); (0, 1)]%float]).
Proof.
  split; [vm_compute; reflexivity|].
  vm_compute. intros H. inversion H.
Qed.

(** A polygon is parsed to a record whose angle is the integer [0] without
    a parent footprint and a one-element tuple with one. *)
Lemma polygon_angle (F : Type) (FL : PyFloat F) (K : pcbnew_consts)
    (d : Drawing.t) (ps : poly_set) :
  dict_get Z.eqb (Drawing.GetShape d) (shape_dict K) = Some "polygon" ->
  Drawing.GetPolyShape d = Some ps ->
  parse_draw_segment K d
  = Some (Polygon (normalize (Drawing.GetStart d))
            match Drawing.GetParentModule d with
            | Some o => VTuple [fmul (of_int o) lit_0_1]
            | None => VInt 0
            end
            (parse_poly_set ps)).
Proof.
  intros Hshape Hps. unfold parse_draw_segment. rewrite Hshape, Hps. reflexivity.
Qed.

(** C7. [normalize] scales both coordinates by the literal [1e-6], each in
    its place; in exact arithmetic that is the coordinate over 10^6; and in
    binary64 a native 1000000 becomes exactly 1.0, in a coordinate pair
    and in a width or radius. *)
Theorem normalize_scales :
  (forall (F : Type) (FL : PyFloat F) (x y : Z),
     normalize (x, y) = (fmul (of_int x) lit_1e_6, fmul (of_int y) lit_1e_6)) /\
  (forall x y : Z,
     (fst (normalize (F := Q) (x, y)) == x # 1000000)%Q /\
     (snd (normalize (F := Q) (x, y)) == y # 1000000)%Q) /\
  normalize (F := float) (1000000, 1000000) = (1, 1)%float /\
  scale (F := float) 1000000 = 1%float /\
  parse_draw_segment (F := float) kicad5
    (graphic 3 44 (1000000, 1000000) (0, 0) 1000000 1000000 0 0 None None)
  = Some (Circle (1, 1)%float 1%float 1%float).
Proof.
  split; [reflexivity|]. split.
  - intros x y. simpl. unfold scale. simpl.
    split; unfold Qeq, Qmult, inject_Z; simpl; lia.
  - repeat split; vm_compute; reflexivity.
Qed.

Lemma parse_outlines_app {F : Type} {FL : PyFloat F} acc pts rest :
  parse_outlines (F := F) acc (map Some pts ++ rest)
  = parse_outlines (acc ++ map (map normalize) pts) rest.
Proof.
  revert acc. induction pts as [|p pts IH]; intros acc; simpl.
  - now rewrite app_nil_r.
  - rewrite IH, <- app_assoc. reflexivity.
Qed.

Lemma outlines_split (os : list (option (list point))) :
  (exists pts rest, os = map Some pts ++ None :: rest) \/
  (exists pts, os = map Some pts).
Proof.
  induction os as [|[p|] os IH].
  - right. now exists [].
  - destruct IH as [(pts & rest & ->)|(pts & ->)].
    + left. now exists (p :: pts), rest.
    + right. now exists (p :: pts).
  - left. now exists [], os.
Qed.

(** C10. [parse_poly_set] returns a list in every case: when an outline
    has no [PointCount] accessor, the normalized outlines before the first
    such outline, without that outline and the later ones; when every
    outline has the accessor, the normalized points of every outline, in
    order.  Every list of outlines is of one of the two forms. *)
Theorem parse_poly_set_outlines (F : Type) (FL : PyFloat F)
    (pts : list (list point)) (rest : list (option (list point)))
    (holes selfx : bool) :
  parse_poly_set
    {| outlines := map Some pts ++ None :: rest;
       HasHoles := holes; IsSelfIntersecting := selfx |}
  = map (map normalize) pts /\
  parse_poly_set
    {| outlines := map Some pts;
       HasHoles := holes; IsSelfIntersecting := selfx |}
  = map (map normalize) pts /\
  (forall ps : poly_set,
     (exists pts' rest', outlines ps = map Some pts' ++ None :: rest') \/
     (exists pts', outlines ps = map Some pts')).
Proof.
  unfold parse_poly_set. simpl. split; [|split].
  - now rewrite parse_outlines_app.
  - rewrite <- (app_nil_r (map Some pts)). now rewrite parse_outlines_app.
  - intros ps. apply outlines_split.
Qed.

(** A set whose second outline has no [PointCount]: the first outline is
    returned, the third is not. *)
Example parse_poly_set_example :
  parse_poly_set (F := float)
    {| outlines := [Some [(1000000, 0)]; None; Some [(0, 1000000)]];
       HasHoles := false; IsSelfIntersecting := false |}
  = [[(1, 0)%float]].
Proof. vm_compute. reflexivity. Qed.

(** ** Footprints *)

Section ModuleFacts.
Context {F : Type} {FL : PyFloat F} (K : pcbnew_consts).

Local Notation "'step'" :=
  (fun (modules : dict string (module_rec (F := F))) (m : Footprint.t) =>
     dict_set String.eqb (Footprint.GetReference m) (module_entry K m) modules).

Lemma fold_modules_NoDup ms (d : dict string module_rec) :
  NoDup (dict_keys d) -> NoDup (dict_keys (fold_left step ms d)).
Proof.
  revert d. induction ms as [|m ms IH]; intros d H; simpl; [exact H|].
  apply IH. apply dict_set_NoDup; [apply String.eqb_eq|exact H].
Qed.

Lemma fold_modules_other r ms (d : dict string module_rec) :
  Forall (fun m => Footprint.GetReference m <> r) ms ->
  dict_get String.eqb r (fold_left step ms d) = dict_get String.eqb r d.
Proof.
  revert d. induction ms as [|m ms IH]; intros d H; simpl; [reflexivity|].
  inversion H; subst. rewrite IH by assumption.
  apply (dict_get_set_other _ String.eqb_eq). assumption.
Qed.

Lemma last_occurrence r (ms : list Footprint.t) :
  In r (map Footprint.GetReference ms) ->
  exists pre m post,
    ms = pre ++ m :: post /\ Footprint.GetReference m = r /\
    Forall (fun m' => Footprint.GetReference m' <> r) post.
Proof.
  induction ms as [|m0 ms IH]; simpl; [tauto|].
  intros H.
  destruct (in_dec string_dec r (map Footprint.GetReference ms)) as [Hin|Hnin].
  - destruct (IH Hin) as (pre & m & post & -> & Hr & Hpost).
    exists (m0 :: pre), m, post. auto.
  - destruct H as [H|H]; [|contradiction].
    exists [], m0, ms. repeat split; auto.
    rewrite Forall_forall. intros m' Hm' Heq. apply Hnin.
    rewrite <- Heq. now apply in_map.
Qed.

End ModuleFacts.

(** C8. For a reference that footprints of the board carry, the mapping of
    [parse_modules] has exactly one entry, and it is the record of the last
    footprint with that reference in the board's enumeration. *)
Theorem parse_modules_last_wins (F : Type) (FL : PyFloat F) (K : pcbnew_consts)
    (pcb : Board.t) (r : string) :
  In r (map Footprint.GetReference (Board.GetModules pcb)) ->
  count_occ string_dec (dict_keys (parse_modules K pcb)) r = 1%nat /\
  exists pre m post,
    Board.GetModules pcb = pre ++ m :: post /\
    Footprint.GetReference m = r /\
    Forall (fun m' => Footprint.GetReference m' <> r) post /\
    dict_get String.eqb r (parse_modules K pcb) = Some (module_entry K m) /\
    (forall e, In (r, e) (parse_modules K pcb) -> e = module_entry K m).
Proof.
  intros Hin.
  destruct (last_occurrence r _ Hin) as (pre & m & post & Hms & Hr & Hpost).
  assert (Hnd : NoDup (dict_keys (parse_modules (F := F) K pcb))).
  { unfold parse_modules. apply fold_modules_NoDup. constructor. }
  assert (Hget : dict_get String.eqb r (parse_modules K pcb)
                 = Some (module_entry (F := F) K m)).
  { unfold parse_modules. rewrite Hms, fold_left_app. simpl.
    rewrite fold_modules_other by exact Hpost.
    rewrite Hr. apply (dict_get_set_same _ String.eqb_eq). }
  split.
  - apply NoDup_count_occ'; [exact Hnd|].
    apply (dict_get_Some_In _ String.eqb_eq) in Hget.
    change r with (fst (r, module_entry (F := F) K m)). now apply in_map.
  - exists pre, m, post. repeat split; auto.
    intros e He.
    pose proof (dict_get_In _ String.eqb_eq _ _ _ Hnd He) as Hg.
    rewrite Hget in Hg. now inversion Hg.
Qed.

Lemma parse_modules_last_wins_witness :
  In "R1" (map Footprint.GetReference (Board.GetModules board_duplicate_ref)) /\
  count_occ string_dec
    (dict_keys (parse_modules (F := Q) kicad5 board_duplicate_ref)) "R1" = 1%nat.
Proof.
  assert (H : In "R1" (map Footprint.GetReference
                         (Board.GetModules board_duplicate_ref)))
    by (simpl; auto).
  split; [exact H|].
  exact (proj1 (parse_modules_last_wins Q exact kicad5 board_duplicate_ref "R1" H)).
Defined.

(** On the board with two [R1]s the entry is the one of the footprint on
    the back, the third of the enumeration. *)
Example duplicate_ref_example :
  option_map (fun e => (mod_layer e, mod_center e))
    (dict_get String.eqb "R1" (parse_modules (F := float) kicad5 board_duplicate_ref))
  = Some (Some "B", (2%float, 0%float)) /\
  dict_keys (parse_modules (F := float) kicad5 board_duplicate_ref) = ["R1"; "R2"].
Proof. split; vm_compute; reflexivity. Qed.

(** ** Pads *)

Lemma dict_set_values {K V : Type} (eqb : K -> K -> bool) (P : V -> Prop) k v d :
  P v -> Forall P (map snd d) -> Forall P (map snd (dict_set eqb k v d)).
Proof.
  intros Hv. induction d as [|[k0 v0] d IH]; simpl; intros H.
  - now constructor.
  - inversion H; subst. destruct (eqb k k0); simpl; constructor; auto.
Qed.

Lemma dict_get_value {K V : Type} (eqb : K -> K -> bool) k (v : V) d :
  dict_get eqb k d = Some v -> In v (map snd d).
Proof.
  induction d as [|[k0 v0] d IH]; simpl; [discriminate|].
  destruct (eqb k k0); [|now right; apply IH].
  intros H. inversion H. now left.
Qed.

Lemma shape_lookup_names (K : pcbnew_consts) code s :
  dict_get Z.eqb code (shape_lookup K) = Some s -> String.eqb s "" = false.
Proof.
  intros H. apply dict_get_value in H.
  assert (Hall : Forall (fun s => String.eqb s "" = false)
                   (map snd (shape_lookup K))).
  { unfold shape_lookup, set_opt, dict_display. cbn [fold_left fst snd].
    destruct (PAD_SHAPE_CUSTOM K), (PAD_SHAPE_ROUNDRECT K);
      repeat (apply dict_set_values; [reflexivity|]); constructor. }
  rewrite Forall_forall in Hall. now apply Hall.
Qed.

Lemma drill_dict_other (K : pcbnew_consts) code :
  code <> PAD_DRILL_SHAPE_CIRCLE K -> code <> PAD_DRILL_SHAPE_OBLONG K ->
  dict_get Z.eqb code (drill_dict K) = None.
Proof.
  intros Hc Ho. unfold drill_dict, dict_display. cbn [fold_left fst snd].
  rewrite !(dict_get_set_other _ Z.eqb_eq) by congruence. reflexivity.
Qed.

(** C9, as the program has it.  A pad whose shape code is in the shape
    table, whose attribute is standard or hole-not-plated and whose drill
    shape code is neither the circle nor the oblong code, is parsed to a
    record of type [th] with its drill size, and a [drillshape] that is
    [None]. *)
Theorem parse_pad_unknown_drill_shape (F : Type) (FL : PyFloat F)
    (K : pcbnew_consts) (pad : Pad.t) :
  dict_get Z.eqb (Pad.GetShape pad) (shape_lookup K) <> None ->
  Pad.GetAttribute pad = PAD_ATTRIB_STANDARD K \/
  Pad.GetAttribute pad = PAD_ATTRIB_HOLE_NOT_PLATED K ->
  Pad.GetDrillShape pad <> PAD_DRILL_SHAPE_CIRCLE K ->
  Pad.GetDrillShape pad <> PAD_DRILL_SHAPE_OBLONG K ->
  exists rec,
    parse_pad K pad = Some rec /\
    pad_type rec = "th" /\
    pad_drillshape rec = Some None /\
    pad_drillsize rec = Some (normalize (Pad.GetDrillSize pad)).
Proof.
  intros Hshape Hattr Hc Ho. unfold parse_pad.
  destruct (dict_get Z.eqb (Pad.GetShape pad) (shape_lookup K)) as [s|] eqn:Es;
    [|congruence].
  rewrite (shape_lookup_names K _ _ Es).
  assert (Hth : (Pad.GetAttribute pad =? PAD_ATTRIB_STANDARD K)
                || (Pad.GetAttribute pad =? PAD_ATTRIB_HOLE_NOT_PLATED K) = true).
  { apply orb_true_iff. rewrite !Z.eqb_eq. exact Hattr. }
  rewrite Hth, (drill_dict_other K _ Hc Ho).
  eexists. split; [reflexivity|]. simpl. auto.
Qed.

Lemma parse_pad_unknown_drill_shape_witness :
  exists rec,
    parse_pad (F := Q) kicad5 (sample_pad 0 3 7) = Some rec /\
    pad_type rec = "th" /\
    pad_drillshape rec = Some None /\
    pad_drillsize rec = Some (normalize (800000, 800000)).
Proof.
  apply (parse_pad_unknown_drill_shape Q exact kicad5 (sample_pad 0 3 7)).
  - vm_compute. discriminate.
  - right. reflexivity.
  - vm_compute. discriminate.
  - vm_compute. discriminate.
Defined.

(** C9, as stated, fails: a standard-plated pad with a drill shape code
    outside the table and a shape code outside the shape table (3, the
    trapezoid of KiCad) is skipped. *)
Lemma parse_pad_unknown_shape_skipped :
  Pad.GetAttribute (sample_pad 3 0 7) = PAD_ATTRIB_STANDARD kicad5 /\
  Pad.GetDrillShape (sample_pad 3 0 7) <> PAD_DRILL_SHAPE_CIRCLE kicad5 /\
  Pad.GetDrillShape (sample_pad 3 0 7) <> PAD_DRILL_SHAPE_OBLONG kicad5 /\
  parse_pad (F := Q) kicad5 (sample_pad 3 0 7) = None.
Proof.
  repeat split; try (vm_compute; discriminate).
Qed.

(** ** The run *)

Section MainFacts.
Context {F : Type} {FL : PyFloat F} (K : pcbnew_consts).
Variables (rect_Merge : Rect -> Rect -> Rect) (rect_Normalize : Rect -> Rect).
Variable componentValue : string -> string.
Variables rect_GetRight rect_GetBottom : Rect -> Z.
Variables mtime_date title_of_path bom_dir_of_path : string -> string.

(** The bounding box stays [None] exactly while no outline primitive
    parses. *)
Lemma edge_fold_bbox ds (acc : list (drawing_rec (F := F)) * option Rect) :
  snd (fold_left (edge_step K rect_Merge) ds acc) = None <->
  snd acc = None /\ outline_parsed (F := F) K ds = [].
Proof.
  revert acc. induction ds as [|d ds IH]; intros [edges bbox]; simpl.
  - tauto.
  - rewrite IH. unfold edge_step.
    destruct (Drawing.GetLayer d =? Edge_Cuts K); simpl; [|tauto].
    destruct (parse_drawing K d); simpl; [|tauto].
    split.
    + intros [H _]. destruct bbox; discriminate.
    + intros [_ H]. discriminate.
Qed.

Lemma bom_views_returns pcb : exists b, bom_views K componentValue pcb = Some b.
Proof.
  unfold bom_views.
  destruct (generate_bom_returns componentValue pcb None) as [t0 ->].
  simpl.
  destruct (generate_bom_returns componentValue pcb (Some (F_Cu K))) as [t1 ->].
  destruct (generate_bom_returns componentValue pcb (Some (B_Cu K))) as [t2 ->].
  now eexists.
Qed.

Lemma main_raises_without_getDrawings is_cli pcb launch_browser :
  Board.GetFileName pcb <> "" ->
  Board.getDrawings pcb = None ->
  main (F := F) K rect_Merge rect_Normalize componentValue rect_GetRight
    rect_GetBottom mtime_date title_of_path bom_dir_of_path
    is_cli pcb launch_browser
  = Raised "AttributeError".
Proof.
  intros Hname Hd. unfold main, parse_edges.
  destruct (String.eqb (Board.GetFileName pcb) "") eqn:E;
    [apply String.eqb_eq in E; contradiction|].
  now rewrite Hd.
Qed.

(** On a board whose [getDrawings] accessor answers: when no primitive
    on the outline layer parses, [main] returns after an error message and
    writes nothing; when one parses and the board has a file name, [main]
    assembles the document and writes it. *)
Theorem main_outline_required (is_cli : bool) (pcb : Board.t)
    (launch_browser : bool) (ds : list Drawing.t) :
  Board.getDrawings pcb = Some ds ->
  (outline_parsed (F := F) K (ds ++ all_graphical_items pcb) = [] ->
   exists msg,
     main K rect_Merge rect_Normalize componentValue rect_GetRight
       rect_GetBottom mtime_date title_of_path bom_dir_of_path
       is_cli pcb launch_browser
     = Reported (F := F) (if is_cli then LogError else MessageBox) msg) /\
  (Board.GetFileName pcb <> "" ->
   outline_parsed (F := F) K (ds ++ all_graphical_items pcb) <> [] ->
   exists doc,
     main K rect_Merge rect_Normalize componentValue rect_GetRight
       rect_GetBottom mtime_date title_of_path bom_dir_of_path
       is_cli pcb launch_browser
     = Written (bom_dir_of_path (Board.GetFileName pcb)) doc launch_browser /\
     edges doc <> [] /\
     modules doc = parse_modules K pcb /\
     silkscreen doc = parse_silkscreen K pcb).
Proof.
  intros Hd.
  pose proof (edge_fold_bbox (ds ++ all_graphical_items pcb) ([], None)) as Hb.
  split.
  - intros Hnone. unfold main, report.
    destruct (String.eqb (Board.GetFileName pcb) ""); [now eexists|].
    unfold parse_edges. rewrite Hd.
    destruct (fold_left (edge_step K rect_Merge)
                (ds ++ all_graphical_items pcb) ([], None)) as [es bbox].
    simpl in Hb. destruct bbox as [b|].
    + exfalso. assert (Some b = None) by (apply Hb; auto). discriminate.
    + simpl. now eexists.
  - intros Hname Hsome. unfold main.
    destruct (String.eqb (Board.GetFileName pcb) "") eqn:E;
      [apply String.eqb_eq in E; contradiction|].
    unfold parse_edges. rewrite Hd.
    assert (Hedges : forall l (acc : list (drawing_rec (F := F)) * option Rect),
               fst acc <> [] ->
               fst (fold_left (edge_step K rect_Merge) l acc) <> []).
    { induction l as [|d l IHl]; intros [es bb] Hne; simpl; [exact Hne|].
      apply IHl. unfold edge_step.
      destruct (Drawing.GetLayer d =? Edge_Cuts K); [|exact Hne].
      destruct (parse_drawing K d); [|exact Hne].
      simpl. now destruct es. }
    assert (Hfirst : forall l (acc : list (drawing_rec (F := F)) * option Rect),
               outline_parsed (F := F) K l <> [] ->
               fst (fold_left (edge_step K rect_Merge) l acc) <> []).
    { unfold outline_parsed.
      induction l as [|d l IHl]; intros [es bb] Hne;
        [exfalso; now apply Hne|].
      cbn [fold_left filter] in Hne |- *. unfold edge_step at 2.
      destruct (Drawing.GetLayer d =? Edge_Cuts K); cbn [andb] in Hne;
        [|now apply IHl].
      destruct (parse_drawing K d); [|now apply IHl].
      apply Hedges. simpl. now destruct es. }
    specialize (Hfirst (ds ++ all_graphical_items pcb) ([], None) Hsome).
    destruct (fold_left (edge_step K rect_Merge)
                (ds ++ all_graphical_items pcb) ([], None)) as [es bbox].
    simpl in Hb, Hfirst. destruct bbox as [b|].
    + simpl. destruct (bom_views_returns pcb) as [bv ->].
      eexists. split; [reflexivity|]. simpl. auto.
    + exfalso. apply Hsome. now apply Hb.
Qed.

End MainFacts.

Lemma main_outline_required_witness :
  Board.getDrawings board_duplicate_ref = Some [sample_edge] /\
  Board.GetFileName board_duplicate_ref <> "" /\
  exists doc,
    main (F := Q) kicad5 (fun a _ => a) (fun a => a) (fun s => s)
      (fun r => fst (rect_GetPosition r) + fst (rect_GetSize r))
      (fun r => snd (rect_GetPosition r) + snd (rect_GetSize r))
      (fun _ => "2018-08-01 12:00:00") (fun _ => "demo") (fun _ => "bom")
      true board_duplicate_ref false
    = Written "bom" doc false.
Proof.
  split; [reflexivity|]. split; [discriminate|].
  destruct (proj2 (main_outline_required (F := Q) kicad5 (fun a _ => a)
                     (fun a => a) (fun s => s)
                     (fun r => fst (rect_GetPosition r) + fst (rect_GetSize r))
                     (fun r => snd (rect_GetPosition r) + snd (rect_GetSize r))
                     (fun _ => "2018-08-01 12:00:00") (fun _ => "demo")
                     (fun _ => "bom")
                     true board_duplicate_ref false [sample_edge] eq_refl))
    as [doc [Hdoc _]].
  - discriminate.
  - vm_compute. discriminate.
  - exists doc. exact Hdoc.
Defined.

(** On a board that has an outline but no file name the run ends with the
    request to save the board and writes nothing. *)
Lemma main_unsaved_board_not_written :
  outline_parsed (F := Q) kicad5
    ([sample_edge] ++ all_graphical_items board_unsaved) <> [] /\
  main (F := Q) kicad5 (fun a _ => a) (fun a => a) (fun s => s)
    (fun r => fst (rect_GetPosition r) + fst (rect_GetSize r))
    (fun r => snd (rect_GetPosition r) + snd (rect_GetSize r))
    (fun _ => "2018-08-01 12:00:00") (fun _ => "demo") (fun _ => "bom")
    true board_unsaved false
  = Reported LogError msg_save.
Proof.
  split; [vm_compute; discriminate|reflexivity].
Qed.

(** Without an outline the run ends with the request to draw one. *)
Example main_no_outline_example :
  main (F := Q) kicad5 (fun a _ => a) (fun a => a) (fun s => s)
    (fun r => fst (rect_GetPosition r) + fst (rect_GetSize r))
    (fun r => snd (rect_GetPosition r) + snd (rect_GetSize r))
    (fun _ => "2018-08-01 12:00:00") (fun _ => "demo") (fun _ => "bom")
    false board_no_outline true
  = Reported MessageBox msg_outline.
Proof. reflexivity. Qed.

(** C6. On a saved board that has [GetDrawings] and no attribute
    [getDrawings], the call [pcb.getDrawings()] of [parse_edges] raises:
    with an outline segment among its drawings the run writes no
    document, and without any outline drawing it reports no message;
    either way it ends in the [AttributeError]. *)
Theorem main_getDrawings_raises :
  outline_parsed (F := Q) kicad5
    (Board.GetDrawings board_pcbnew ++ all_graphical_items board_pcbnew) <> [] /\
  main (F := Q) kicad5 (fun a _ => a) (fun a => a) (fun s => s)
    (fun r => fst (rect_GetPosition r) + fst (rect_GetSize r))
    (fun r => snd (rect_GetPosition r) + snd (rect_GetSize r))
    (fun _ => "2018-08-01 12:00:00") (fun _ => "demo") (fun _ => "bom")
    true board_pcbnew false
  = Raised "AttributeError" /\
  outline_parsed (F := Q) kicad5
    (Board.GetDrawings board_pcbnew_no_outline
     ++ all_graphical_items board_pcbnew_no_outline) = [] /\
  main (F := Q) kicad5 (fun a _ => a) (fun a => a) (fun s => s)
    (fun r => fst (rect_GetPosition r) + fst (rect_GetSize r))
    (fun r => snd (rect_GetPosition r) + snd (rect_GetSize r))
    (fun _ => "2018-08-01 12:00:00") (fun _ => "demo") (fun _ => "bom")
    true board_pcbnew_no_outline false
  = Raised "AttributeError".
Proof.
  split; [vm_compute; discriminate|].
  split; [reflexivity|].
  split; reflexivity.
Qed.

(** * Further properties *)

(** ** The natural order *)

Lemma natural_le_key a b :
  natural_le a b <-> PyOrd.list_compare (alphanum_key a) (alphanum_key b) <> Gt.
Proof. unfold natural_le. now rewrite alphanum_key_compare. Qed.

(** X1. The natural order of references is a total preorder, and two
    references are each before the other exactly when [alphanum_key]
    gives them the same key. *)
Theorem natural_le_total_preorder :
  (forall a, natural_le a a) /\
  (forall a b c, natural_le a b -> natural_le b c -> natural_le a c) /\
  (forall a b, natural_le a b \/ natural_le b a) /\
  (forall a b, natural_le a b /\ natural_le b a <-> alphanum_key a = alphanum_key b).
Proof.
  split; [|split; [|split]].
  - intros a. apply natural_le_key. now rewrite cmp_refl.
  - intros a b c. rewrite !natural_le_key. apply cmp_le_trans.
  - intros a b. rewrite !natural_le_key.
    destruct (PyOrd.list_compare (alphanum_key a) (alphanum_key b)) eqn:E.
    + left. discriminate.
    + left. discriminate.
    + right. apply cmp_gt_lt in E. rewrite E. discriminate.
  - intros a b. rewrite !natural_le_key. split.
    + intros [H1 H2].
      destruct (PyOrd.list_compare (alphanum_key a) (alphanum_key b)) eqn:E.
      * now apply cmp_eq in E.
      * apply cmp_gt_lt in E. congruence.
      * congruence.
    + intros H. rewrite H, cmp_refl. split; discriminate.
Qed.

Lemma insert_key_head {A K : Type} (klt : K -> K -> bool) (x : K * A) l :
  Forall (key_le klt x) l -> insert_key klt x l = x :: l.
Proof.
  destruct l as [|y ys]; [reflexivity|].
  intros H. inversion H as [|? ? Hy _]; subst. simpl.
  unfold key_le in Hy. now rewrite Hy.
Qed.

Lemma sort_decorated_fixed {A K : Type} (klt : K -> K -> bool) (l : list (K * A)) :
  StronglySorted (key_le klt) l -> sort_decorated klt l = l.
Proof.
  induction 1 as [|x t Hs IH Hall]; simpl; [reflexivity|].
  rewrite IH. now apply insert_key_head.
Qed.

Lemma py_sorted_idempotent {A K : Type} (klt : K -> K -> bool) (key : A -> K) l :
  (forall a b, klt a b = true -> klt b a = false) ->
  (forall a b c, klt b a = false -> klt c b = false -> klt c a = false) ->
  py_sorted klt key (py_sorted klt key l) = py_sorted klt key l.
Proof.
  intros Hasym Htrans. unfold py_sorted.
  set (D := sort_decorated klt (map (fun a => (key a, a)) l)).
  assert (Hdec : map (fun a => (key a, a)) (map snd D) = D).
  { assert (Hall : Forall (fun p => fst p = key (snd p)) D).
    { unfold D. rewrite <- sort_decorated_perm. rewrite Forall_forall.
      intros r Hr. apply in_map_iff in Hr. now destruct Hr as [a [<- _]]. }
    induction Hall as [|[k a] D' Hp _ IH]; simpl; [reflexivity|].
    simpl in Hp. subst k. now rewrite IH. }
  rewrite Hdec. f_equal. apply sort_decorated_fixed.
  unfold D. now apply sort_decorated_sorted.
Qed.

(** X2. Sorting references that are already naturally sorted changes
    nothing: [natural_sort] is idempotent. *)
Theorem natural_sort_idempotent (l : list string) :
  natural_sort (natural_sort l) = natural_sort l.
Proof.
  apply py_sorted_idempotent; [apply list_ltb_asym|apply list_ltb_le_trans].
Qed.

Lemma lower_char_digit c : PyStr.is_digit (PyStr.lower_char c) = PyStr.is_digit c.
Proof.
  destruct c as [[] [] [] [] [] [] [] []]; reflexivity.
Qed.

Lemma lower_char_idem c : PyStr.lower_char (PyStr.lower_char c) = PyStr.lower_char c.
Proof.
  destruct c as [[] [] [] [] [] [] [] []]; reflexivity.
Qed.

Lemma lower_idem s : PyStr.lower (PyStr.lower s) = PyStr.lower s.
Proof.
  induction s as [|c s IH]; simpl; [reflexivity|].
  now rewrite lower_char_idem, IH.
Qed.

Lemma lower_digit_char c : PyStr.is_digit c = true -> PyStr.lower_char c = c.
Proof.
  destruct c as [[] [] [] [] [] [] [] []]; simpl; intros H;
    try reflexivity; discriminate.
Qed.

Lemma lower_all_digits s : PyStr.all_digits s = true -> PyStr.lower s = s.
Proof.
  induction s as [|c s IH]; simpl; [reflexivity|].
  intros H. apply andb_prop in H. destruct H as [Hc Hs].
  now rewrite (lower_digit_char _ Hc), IH.
Qed.

Lemma all_digits_lower s : PyStr.all_digits (PyStr.lower s) = PyStr.all_digits s.
Proof.
  induction s as [|c s IH]; simpl; [reflexivity|].
  now rewrite lower_char_digit, IH.
Qed.

Lemma convert_lower r : convert (PyStr.lower r) = convert r.
Proof.
  unfold convert.
  assert (Hd : PyStr.isdigit (PyStr.lower r) = PyStr.isdigit r).
  { destruct r as [|c r]; [reflexivity|].
    change (PyStr.all_digits (PyStr.lower (String c r))
            = PyStr.all_digits (String c r)).
    apply all_digits_lower. }
  rewrite Hd. destruct (PyStr.isdigit r) eqn:E.
  - now rewrite (lower_all_digits _ (isdigit_all_digits _ E)).
  - now rewrite lower_idem.
Qed.

Lemma re_split_lower s :
  PyStr.re_split_digits (PyStr.lower s) = map PyStr.lower (PyStr.re_split_digits s).
Proof.
  induction s as [|c s IH]; simpl; [reflexivity|].
  rewrite IH, lower_char_digit.
  destruct (PyStr.re_split_digits s) as [|txt rest]; simpl; [reflexivity|].
  destruct (PyStr.is_digit c); [|reflexivity].
  destruct txt as [|t0 txt]; simpl; [|reflexivity].
  destruct rest as [|d rest']; reflexivity.
Qed.

(** X3. The sort key does not see the case of letters: a reference and
    its lower-case form have the same [alphanum_key]. *)
Theorem alphanum_key_ignores_case (s : string) :
  alphanum_key (PyStr.lower s) = alphanum_key s.
Proof.
  unfold alphanum_key. rewrite re_split_lower, map_map.
  apply map_ext. apply convert_lower.
Qed.

Lemma re_split_text t :
  PyStr.no_digits t = true -> PyStr.re_split_digits t = [t].
Proof.
  induction t as [|c t IH]; simpl; [reflexivity|].
  intros H. apply andb_prop in H. destruct H as [Hc Ht].
  rewrite (IH Ht). now destruct (PyStr.is_digit c).
Qed.

Lemma re_split_digits_text d t :
  PyStr.isdigit d = true -> PyStr.no_digits t = true ->
  PyStr.re_split_digits (d ++ t) = [""; d; t].
Proof.
  intros Hd Ht. destruct d as [|c d]; [discriminate|].
  simpl in Hd. revert c Hd. induction d as [|c' d IH]; intros c Hd.
  - simpl in *. rewrite (re_split_text _ Ht).
    destruct (PyStr.is_digit c); [|discriminate]. now destruct t.
  - apply andb_prop in Hd. destruct Hd as [Hc Hd].
    change (String c (String c' d) ++ t)%string
      with (String c (String c' d ++ t)).
    cbn [PyStr.re_split_digits]. change (PyStr.re_split_digits (String c' (d ++ t)))
      with (PyStr.re_split_digits (String c' d ++ t)).
    rewrite (IH c' Hd). now rewrite Hc.
Qed.

Lemma re_split_three p d t :
  PyStr.no_digits p = true -> PyStr.isdigit d = true -> PyStr.no_digits t = true ->
  PyStr.re_split_digits (p ++ d ++ t) = [p; d; t].
Proof.
  intros Hp Hd Ht. induction p as [|c p IH].
  - cbn [append]. now apply re_split_digits_text.
  - simpl in Hp. apply andb_prop in Hp. destruct Hp as [Hc Hp].
    change (String c p ++ d ++ t)%string with (String c (p ++ d ++ t)).
    cbn [PyStr.re_split_digits]. rewrite (IH Hp).
    now destruct (PyStr.is_digit c).
Qed.

(** X4. Digit runs count as numbers: of two references with the same
    text before their first number, the one with the smaller number comes
    first in the natural order, whatever the digits' count or leading
    zeros, and not the other way round. *)
Theorem natural_le_numeric (p d1 t1 d2 t2 : string) :
  PyStr.no_digits p = true ->
  PyStr.isdigit d1 = true -> PyStr.no_digits t1 = true ->
  PyStr.isdigit d2 = true -> PyStr.no_digits t2 = true ->
  PyStr.int d1 < PyStr.int d2 ->
  natural_le (p ++ d1 ++ t1) (p ++ d2 ++ t2) /\
  ~ natural_le (p ++ d2 ++ t2) (p ++ d1 ++ t1).
Proof.
  intros Hp Hd1 Ht1 Hd2 Ht2 Hlt. unfold natural_le, runs.
  rewrite !re_split_three by assumption.
  cbn [runs_compare negb].
  rewrite (cmp_refl (cmp := String.compare)).
  split.
  - apply Z.compare_lt_iff in Hlt. rewrite Hlt. discriminate.
  - intros H. apply H. apply Z.compare_gt_iff in Hlt. now rewrite Hlt.
Qed.

Lemma natural_le_numeric_witness :
  natural_le "R2" "R10" /\ ~ natural_le "R10" "R2".
Proof.
  apply (natural_le_numeric "R" "2" "" "10" ""); reflexivity.
Defined.

(** ** Drawings that are skipped *)

Lemma shape_dict_names (K : pcbnew_consts) code s :
  dict_get Z.eqb code (shape_dict K) = Some s ->
  s = "segment" \/ s = "circle" \/ s = "arc" \/ s = "polygon".
Proof.
  intros H. apply dict_get_value in H.
  assert (Hall : Forall (fun s => s = "segment" \/ s = "circle" \/ s = "arc"
                                  \/ s = "polygon")
                   (map snd (shape_dict K))).
  { unfold shape_dict, dict_display. cbn [fold_left fst snd].
    repeat (apply dict_set_values; [tauto|]). constructor. }
  rewrite Forall_forall in Hall. now apply Hall.
Qed.

Lemma parse_draw_segment_cases (F : Type) (FL : PyFloat F)
    (K : pcbnew_consts) (d : Drawing.t) :
  (unsupported_shape K d /\ parse_draw_segment (F := F) K d = None) \/
  (~ unsupported_shape K d /\ exists r, parse_draw_segment (F := F) K d = Some r).
Proof.
  unfold unsupported_shape, parse_draw_segment.
  destruct (dict_get Z.eqb (Drawing.GetShape d) (shape_dict K)) as [s|] eqn:E.
  - destruct (shape_dict_names K _ _ E) as [-> | [-> | [-> | ->]]]; simpl.
    + right. split; [|now eexists]. intros [H|[H _]]; discriminate.
    + right. split; [|now eexists]. intros [H|[H _]]; discriminate.
    + right. split; [intros [H|[H _]]; discriminate|].
      destruct (Drawing.GetAngle d <? 0); now eexists.
    + destruct (Drawing.GetPolyShape d).
      * right. split; [|now eexists]. intros [H|[_ H]]; discriminate.
      * left. auto.
  - left. auto.
Qed.

(** X5. [parse_draw_segment] skips a primitive exactly when its shape code
    is not one of the four in the table, or it is a polygon and the board
    object has no [GetPolyShape] accessor; segments, circles and arcs are
    always parsed. *)
Theorem parse_draw_segment_skips (F : Type) (FL : PyFloat F)
    (K : pcbnew_consts) (d : Drawing.t) :
  parse_draw_segment (F := F) K d = None <-> unsupported_shape K d.
Proof.
  destruct (parse_draw_segment_cases F FL K d) as [[Hu Hn]|[Hu [r Hr]]].
  - tauto.
  - rewrite Hr. split; [discriminate|contradiction].
Qed.

Lemma str_in_graphic d :
  str_in (Drawing.GetClass d) ["DRAWSEGMENT"; "MGRAPHIC"] = true <-> is_graphic_class d.
Proof.
  unfold str_in, is_graphic_class. simpl.
  rewrite !orb_true_iff, !String.eqb_eq. intuition discriminate.
Qed.

Lemma str_in_text d :
  str_in (Drawing.GetClass d) ["PTEXT"; "MTEXT"] = true <-> is_text_class d.
Proof.
  unfold str_in, is_text_class. simpl.
  rewrite !orb_true_iff, !String.eqb_eq. intuition discriminate.
Qed.

Lemma graphic_not_text d : is_graphic_class d -> ~ is_text_class d.
Proof.
  unfold is_graphic_class, is_text_class.
  intros [H|H] [H'|H']; rewrite H in H'; discriminate.
Qed.

(** X6. [parse_drawing] skips a drawing exactly in three cases: a graphic
    with an unsupported shape, a text that is not visible, and an object
    of any other class; nothing else is dropped. *)
Theorem parse_drawing_skips (F : Type) (FL : PyFloat F)
    (K : pcbnew_consts) (d : Drawing.t) :
  parse_drawing (F := F) K d = None <->
  (is_graphic_class d /\ unsupported_shape K d) \/
  (is_text_class d /\ Drawing.IsVisible d = false) \/
  (~ is_graphic_class d /\ ~ is_text_class d).
Proof.
  unfold parse_drawing.
  destruct (str_in (Drawing.GetClass d) ["DRAWSEGMENT"; "MGRAPHIC"]) eqn:Eg.
  - apply str_in_graphic in Eg. pose proof (graphic_not_text d Eg).
    destruct (parse_draw_segment_cases F FL K d) as [[Hu Hn]|[Hu [r Hr]]].
    + rewrite Hn. tauto.
    + rewrite Hr. split; [discriminate|tauto].
  - assert (Hg : ~ is_graphic_class d).
    { intros H. apply str_in_graphic in H. congruence. }
    destruct (str_in (Drawing.GetClass d) ["PTEXT"; "MTEXT"]) eqn:Et.
    + apply str_in_text in Et. unfold parse_text.
      destruct (Drawing.IsVisible d); simpl.
      * destruct (Drawing.GetTextHeight d) as [[h w]|].
        -- split; [discriminate|]. intros [[? _]|[[_ ?]|[_ ?]]];
             try contradiction; discriminate.
        -- split; [discriminate|]. intros [[? _]|[[_ ?]|[_ ?]]];
             try contradiction; discriminate.
      * split; auto.
    + assert (Ht : ~ is_text_class d).
      { intros H. apply str_in_text in H. congruence. }
      split; auto.
Qed.

(** X7. The kind of record follows the class of the object: a text record
    comes from a [PTEXT] or [MTEXT] only, and any other record from a
    [DRAWSEGMENT] or [MGRAPHIC] only. *)
Theorem parse_drawing_record_kind (F : Type) (FL : PyFloat F)
    (K : pcbnew_consts) (d : Drawing.t) (r : drawing_rec (F := F)) :
  parse_drawing K d = Some r ->
  (is_text_rec r -> is_text_class d) /\
  (~ is_text_rec r -> is_graphic_class d).
Proof.
  unfold parse_drawing.
  destruct (str_in (Drawing.GetClass d) ["DRAWSEGMENT"; "MGRAPHIC"]) eqn:Eg.
  - apply str_in_graphic in Eg. intros H. split; [|auto].
    unfold parse_draw_segment in H.
    destruct (dict_get Z.eqb (Drawing.GetShape d) (shape_dict K)) as [s|] eqn:E;
      [|discriminate].
    destruct (shape_dict_names K _ _ E) as [-> | [-> | [-> | ->]]]; simpl in H.
    + inversion H; subst. simpl. tauto.
    + inversion H; subst. simpl. tauto.
    + destruct (Drawing.GetAngle d <? 0); inversion H; subst; simpl; tauto.
    + destruct (Drawing.GetPolyShape d); inversion H; subst. simpl. tauto.
  - destruct (str_in (Drawing.GetClass d) ["PTEXT"; "MTEXT"]) eqn:Et;
      [|discriminate].
    apply str_in_text in Et. intros H. split; [auto|].
    unfold parse_text in H. destruct (negb (Drawing.IsVisible d)); [discriminate|].
    destruct (Drawing.GetTextHeight d) as [[h w]|]; inversion H; subst;
      simpl; tauto.
Qed.

Lemma parse_drawing_record_kind_witness :
  parse_drawing (F := Q) kicad5 sample_arc
  = Some (Arc (normalize (0, 0)) (scale 1000000)
            (fmul (of_int (-900)) lit_0_1) (fmul (of_int 0) lit_0_1)
            (scale 150000)) /\
  is_graphic_class sample_arc.
Proof.
  split; [reflexivity|].
  apply (parse_drawing_record_kind Q exact kicad5 sample_arc _ eq_refl).
  simpl. tauto.
Defined.

(** ** Outline and silkscreen as filters *)

Section LayerFacts.
Context {F : Type} {FL : PyFloat F} (K : pcbnew_consts).
Variables (rect_Merge : Rect -> Rect -> Rect) (rect_Normalize : Rect -> Rect).

Lemma parsed_list_app (l1 l2 : list Drawing.t) :
  parsed_list (F := F) K (l1 ++ l2) = parsed_list K l1 ++ parsed_list K l2.
Proof. unfold parsed_list. apply flat_map_app. Qed.

Lemma edge_fold_collects ds (es : list (drawing_rec (F := F))) (bb : option Rect) :
  fold_left (edge_step K rect_Merge) ds (es, bb)
  = (es ++ parsed_list K (outline_parsed (F := F) K ds),
     merge_boxes rect_Merge bb (outline_parsed (F := F) K ds)).
Proof.
  revert es bb. induction ds as [|d ds IH]; intros es bb.
  - simpl. now rewrite app_nil_r.
  - cbn [fold_left]. unfold outline_parsed. cbn [filter].
    unfold edge_step at 2.
    destruct (Drawing.GetLayer d =? Edge_Cuts K); cbn [andb]; [|apply IH].
    destruct (parse_drawing K d) as [r|] eqn:Ep; [|apply IH].
    rewrite IH. unfold outline_parsed, parsed_list, merge_boxes.
    cbn [flat_map fold_left]. rewrite Ep. cbn [opt_list].
    rewrite <- app_assoc. simpl. now destruct bb.
Qed.

Lemma parsed_outline_length (ds : list Drawing.t) :
  List.length (parsed_list K (outline_parsed (F := F) K ds))
  = List.length (outline_parsed (F := F) K ds).
Proof.
  unfold outline_parsed, parsed_list.
  induction ds as [|d ds IH]; simpl; [reflexivity|].
  destruct (Drawing.GetLayer d =? Edge_Cuts K); simpl; [|exact IH].
  destruct (parse_drawing K d) eqn:E; simpl; [|exact IH].
  rewrite E. simpl. now rewrite IH.
Qed.

Lemma merge_boxes_some ds r : merge_boxes rect_Merge (Some r) ds <> None.
Proof.
  revert r. unfold merge_boxes. induction ds as [|d ds IH]; intros r; simpl.
  - discriminate.
  - apply IH.
Qed.

Lemma merge_boxes_none ds : merge_boxes rect_Merge None ds = None <-> ds = [].
Proof.
  destruct ds as [|d ds]; [simpl; tauto|].
  split; [|discriminate]. intros H. exfalso.
  exact (merge_boxes_some ds (Drawing.GetBoundingBox d) H).
Qed.

(** X8. The edges [parse_edges] returns are the records of the drawings
    on the outline layer that parse, board drawings first and then the
    graphics of the footprints, one record for each and in that order;
    the bounding box is the merge, normalized, of the boxes of exactly
    those drawings, and it is [None] exactly when there is none. *)
Theorem parse_edges_collects (pcb : Board.t) (ds : list Drawing.t) :
  Board.getDrawings pcb = Some ds ->
  let prims := outline_parsed (F := F) K (ds ++ all_graphical_items pcb) in
  parse_edges K rect_Merge rect_Normalize pcb
  = Ok (parsed_list K prims,
        option_map rect_Normalize (merge_boxes rect_Merge None prims)) /\
  List.length (parsed_list K prims) = List.length prims /\
  (option_map rect_Normalize (merge_boxes rect_Merge None prims) = None
   <-> prims = []).
Proof.
  intros Hd prims. unfold parse_edges. rewrite Hd.
  rewrite edge_fold_collects. fold prims. simpl. repeat split.
  - apply parsed_outline_length.
  - intros H. apply merge_boxes_none.
    destruct (merge_boxes rect_Merge None prims); [discriminate|reflexivity].
  - intros ->. reflexivity.
Qed.

Lemma silk_fold_partition ds (front back : list (drawing_rec (F := F))) :
  fold_left (silk_step K) ds (front, back)
  = (front ++ parsed_list K
               (filter (fun d => Drawing.GetLayer d =? F_SilkS K) ds),
     back ++ parsed_list K
              (filter (fun d => (Drawing.GetLayer d =? B_SilkS K)
                                && negb (Drawing.GetLayer d =? F_SilkS K)) ds)).
Proof.
  revert front back. induction ds as [|d ds IH]; intros front back.
  - simpl. now rewrite !app_nil_r.
  - cbn [fold_left filter]. unfold silk_step at 2. unfold z_in. cbn [existsb].
    destruct (Drawing.GetLayer d =? F_SilkS K) eqn:Ef; cbn [orb negb andb].
    + rewrite andb_false_r.
      destruct (parse_drawing K d) as [r|] eqn:Ep.
      * rewrite IH. unfold parsed_list. cbn [flat_map]. rewrite Ep.
        cbn [opt_list]. now rewrite <- app_assoc.
      * rewrite IH. unfold parsed_list. cbn [flat_map]. now rewrite Ep.
    + rewrite orb_false_r, andb_true_r.
      destruct (Drawing.GetLayer d =? B_SilkS K) eqn:Eb; cbn [negb].
      * destruct (parse_drawing K d) as [r|] eqn:Ep.
        -- rewrite IH. unfold parsed_list. cbn [flat_map]. rewrite Ep.
           cbn [opt_list]. now rewrite <- app_assoc.
        -- rewrite IH. unfold parsed_list. cbn [flat_map]. now rewrite Ep.
      * apply IH.
Qed.

(** X9. [parse_silkscreen] sorts the drawings by layer and keeps their
    order: the front list holds the records of the drawings on [F_SilkS]
    that parse, the back list those on [B_SilkS]; a drawing on any other
    layer enters neither. *)
Theorem parse_silkscreen_partition (pcb : Board.t) :
  parse_silkscreen (F := F) K pcb
  = (parsed_list K
       (filter (fun d => Drawing.GetLayer d =? F_SilkS K) (silk_drawings pcb)),
     parsed_list K
       (filter (fun d => (Drawing.GetLayer d =? B_SilkS K)
                         && negb (Drawing.GetLayer d =? F_SilkS K))
          (silk_drawings pcb))).
Proof. unfold parse_silkscreen. now rewrite silk_fold_partition. Qed.

End LayerFacts.

Lemma parse_edges_collects_witness :
  Board.getDrawings board_duplicate_ref = Some [sample_edge] /\
  parse_edges (F := Q) kicad5 (fun a _ => a) (fun a => a) board_duplicate_ref
  = Ok ([Segment (normalize (0, 0)) (normalize (1000000, 0)) (scale 150000)],
        Some unit_rect).
Proof.
  split; [reflexivity|].
  exact (proj1 (parse_edges_collects (F := Q) kicad5 (fun a _ => a) (fun a => a)
                  board_duplicate_ref [sample_edge] eq_refl)).
Defined.

(** ** Pads: which keys a record has *)

Lemma shape_lookup_values (K : pcbnew_consts) code s :
  dict_get Z.eqb code (shape_lookup K) = Some s ->
  s = "rect" \/ s = "oval" \/ s = "circle" \/
  (s = "roundrect" /\ PAD_SHAPE_ROUNDRECT K <> None) \/
  (s = "custom" /\ PAD_SHAPE_CUSTOM K <> None).
Proof.
  intros H. apply dict_get_value in H.
  assert (Hall : Forall (fun s => s = "rect" \/ s = "oval" \/ s = "circle" \/
                                  (s = "roundrect" /\ PAD_SHAPE_ROUNDRECT K <> None) \/
                                  (s = "custom" /\ PAD_SHAPE_CUSTOM K <> None))
                   (map snd (shape_lookup K))).
  { unfold shape_lookup, set_opt, dict_display. cbn [fold_left fst snd].
    destruct (PAD_SHAPE_CUSTOM K), (PAD_SHAPE_ROUNDRECT K);
      repeat (apply dict_set_values;
              [intuition congruence|]); constructor. }
  rewrite Forall_forall in Hall. now apply Hall.
Qed.

(** X10. [parse_pad] skips a pad exactly when its shape code is not in the
    shape table; every other pad gets a record. *)
Theorem parse_pad_skips (F : Type) (FL : PyFloat F) (K : pcbnew_consts)
    (pad : Pad.t) :
  parse_pad (F := F) K pad = None <->
  dict_get Z.eqb (Pad.GetShape pad) (shape_lookup K) = None.
Proof.
  unfold parse_pad.
  destruct (dict_get Z.eqb (Pad.GetShape pad) (shape_lookup K)) as [s|] eqn:E.
  - rewrite (shape_lookup_names K _ _ E). split; discriminate.
  - simpl. tauto.
Qed.

Lemma drill_dict_decode (K : pcbnew_consts) code :
  dict_get Z.eqb code (drill_dict K)
  = if code =? PAD_DRILL_SHAPE_OBLONG K then Some "oblong"
    else if code =? PAD_DRILL_SHAPE_CIRCLE K then Some "circle"
    else None.
Proof.
  unfold drill_dict, dict_display. cbn [fold_left fst snd].
  destruct (code =? PAD_DRILL_SHAPE_OBLONG K) eqn:Eo.
  - apply Z.eqb_eq in Eo. subst code.
    apply (dict_get_set_same _ Z.eqb_eq).
  - apply Z.eqb_neq in Eo.
    rewrite (dict_get_set_other _ Z.eqb_eq) by congruence.
    simpl. now destruct (code =? PAD_DRILL_SHAPE_CIRCLE K).
Qed.

Lemma parse_pad_record (F : Type) (FL : PyFloat F) (K : pcbnew_consts)
    (pad : Pad.t) (r : pad_rec (F := F)) :
  parse_pad K pad = Some r ->
  exists s,
    dict_get Z.eqb (Pad.GetShape pad) (shape_lookup K) = Some s /\
    pad_shape r = s /\
    pad_layers r
    = (if z_in (F_Cu K) (Pad.GetLayerSet pad) then ["F"] else []) ++
      (if z_in (B_Cu K) (Pad.GetLayerSet pad) then ["B"] else []) /\
    pad_pin1 r
    = (if String.eqb (Pad.GetPadName pad) "1" || String.eqb (Pad.GetPadName pad) "A1"
       then Some 1 else None) /\
    pad_polygons r
    = (if String.eqb s "custom"
       then Some (parse_poly_set (Pad.GetCustomShapeAsPolygon pad)) else None) /\
    pad_radius r
    = (if String.eqb s "roundrect"
       then Some (scale (Pad.GetRoundRectCornerRadius pad)) else None) /\
    pad_offset r = option_map normalize (Pad.GetOffset pad) /\
    let th := (Pad.GetAttribute pad =? PAD_ATTRIB_STANDARD K) ||
              (Pad.GetAttribute pad =? PAD_ATTRIB_HOLE_NOT_PLATED K) in
    pad_type r = (if th then "th" else "smd") /\
    pad_drillshape r
    = (if th then Some (dict_get Z.eqb (Pad.GetDrillShape pad) (drill_dict K))
       else None) /\
    pad_drillsize r
    = (if th then Some (normalize (Pad.GetDrillSize pad)) else None).
Proof.
  unfold parse_pad.
  destruct (dict_get Z.eqb (Pad.GetShape pad) (shape_lookup K)) as [s|] eqn:E;
    [|simpl; discriminate].
  rewrite (shape_lookup_names K _ _ E). intros H. inversion H; subst r. clear H.
  exists s. simpl. repeat split; reflexivity.
Qed.

(** X11. A pad record is through-hole exactly when the pad's attribute is
    standard or hole-not-plated, and only then has it the drill entries:
    the drill size and a drill shape that is [oblong] for the oblong code,
    [circle] for the circle code and [None] for any other code; any other
    pad is [smd] and has neither entry. *)
Theorem parse_pad_mount_type (F : Type) (FL : PyFloat F) (K : pcbnew_consts)
    (pad : Pad.t) (r : pad_rec (F := F)) :
  parse_pad K pad = Some r ->
  ((Pad.GetAttribute pad = PAD_ATTRIB_STANDARD K \/
    Pad.GetAttribute pad = PAD_ATTRIB_HOLE_NOT_PLATED K) /\
   pad_type r = "th" /\
   pad_drillsize r = Some (normalize (Pad.GetDrillSize pad)) /\
   pad_drillshape r
   = Some (if Pad.GetDrillShape pad =? PAD_DRILL_SHAPE_OBLONG K then Some "oblong"
           else if Pad.GetDrillShape pad =? PAD_DRILL_SHAPE_CIRCLE K
                then Some "circle" else None)) \/
  (Pad.GetAttribute pad <> PAD_ATTRIB_STANDARD K /\
   Pad.GetAttribute pad <> PAD_ATTRIB_HOLE_NOT_PLATED K /\
   pad_type r = "smd" /\ pad_drillsize r = None /\ pad_drillshape r = None).
Proof.
  intros H. destruct (parse_pad_record F FL K pad r H)
    as (s & _ & _ & _ & _ & _ & _ & _ & Ht & Hds & Hdz).
  destruct ((Pad.GetAttribute pad =? PAD_ATTRIB_STANDARD K) ||
            (Pad.GetAttribute pad =? PAD_ATTRIB_HOLE_NOT_PLATED K)) eqn:E.
  - left. apply orb_true_iff in E. rewrite !Z.eqb_eq in E.
    rewrite drill_dict_decode in Hds. auto.
  - right. apply orb_false_iff in E. rewrite !Z.eqb_neq in E.
    destruct E. auto.
Qed.

Lemma parse_pad_mount_type_witness :
  exists r,
    parse_pad (F := Q) kicad5 (sample_pad 0 3 1) = Some r /\
    pad_type r = "th" /\ pad_drillshape r = Some (Some "oblong").
Proof.
  eexists. split; [reflexivity|].
  destruct (parse_pad_mount_type Q exact kicad5 (sample_pad 0 3 1) _ eq_refl)
    as [(_ & Ht & _ & Hd)|(_ & Hn & _)].
  - split; [exact Ht|exact Hd].
  - exfalso. apply Hn. reflexivity.
Defined.

Lemma z_in_In z l : z_in z l = true <-> In z l.
Proof.
  unfold z_in. rewrite existsb_exists. split.
  - intros [x [Hx E]]. apply Z.eqb_eq in E. now subst.
  - intros H. exists z. split; [exact H|apply Z.eqb_refl].
Qed.

(** X12. The entries a pad record has on some paths only: [pin1] is there,
    with the value 1, exactly for the pad names [1] and [A1]; the polygons
    exactly for the shape [custom] and the corner radius exactly for the
    shape [roundrect]; when [pcbnew] has no [PAD_SHAPE_CUSTOM] or no
    [PAD_SHAPE_ROUNDRECT] no record has that shape; and the offset is
    there exactly when the pad has a [GetOffset] accessor. *)
Theorem parse_pad_optional_entries (F : Type) (FL : PyFloat F)
    (K : pcbnew_consts) (pad : Pad.t) (r : pad_rec (F := F)) :
  parse_pad K pad = Some r ->
  (pad_pin1 r = Some 1 <-> Pad.GetPadName pad = "1" \/ Pad.GetPadName pad = "A1") /\
  (pad_pin1 r = None <-> ~ (Pad.GetPadName pad = "1" \/ Pad.GetPadName pad = "A1")) /\
  (pad_polygons r <> None <-> pad_shape r = "custom") /\
  (pad_radius r <> None <-> pad_shape r = "roundrect") /\
  (PAD_SHAPE_CUSTOM K = None -> pad_shape r <> "custom") /\
  (PAD_SHAPE_ROUNDRECT K = None -> pad_shape r <> "roundrect") /\
  (pad_offset r = None <-> Pad.GetOffset pad = None).
Proof.
  intros H. destruct (parse_pad_record F FL K pad r H)
    as (s & Hs & Hshape & _ & Hpin & Hpoly & Hrad & Hoff & _).
  assert (Hname : String.eqb (Pad.GetPadName pad) "1"
                  || String.eqb (Pad.GetPadName pad) "A1" = true
                  <-> Pad.GetPadName pad = "1" \/ Pad.GetPadName pad = "A1").
  { now rewrite orb_true_iff, !String.eqb_eq. }
  pose proof (shape_lookup_values K _ _ Hs) as Hv.
  split; [|split; [|split; [|split; [|split; [|split]]]]].
  - rewrite Hpin, <- Hname.
    destruct (String.eqb (Pad.GetPadName pad) "1"
              || String.eqb (Pad.GetPadName pad) "A1");
      split; congruence.
  - rewrite Hpin, <- Hname.
    destruct (String.eqb (Pad.GetPadName pad) "1"
              || String.eqb (Pad.GetPadName pad) "A1");
      split; congruence.
  - rewrite Hpoly, Hshape, <- String.eqb_eq.
    destruct (String.eqb s "custom"); split; congruence.
  - rewrite Hrad, Hshape, <- String.eqb_eq.
    destruct (String.eqb s "roundrect"); split; congruence.
  - rewrite Hshape. intros Hc Hs'. subst s.
    destruct Hv as [Hv|[Hv|[Hv|[[Hv _]|[_ Hv]]]]]; congruence.
  - rewrite Hshape. intros Hc Hs'. subst s.
    destruct Hv as [Hv|[Hv|[Hv|[[_ Hv]|[Hv _]]]]]; congruence.
  - rewrite Hoff. destruct (Pad.GetOffset pad); simpl; split; congruence.
Qed.

Lemma parse_pad_optional_entries_witness :
  exists r,
    parse_pad (F := Q) kicad5 (sample_pad 5 1 0) = Some r /\
    pad_pin1 r = Some 1 /\ pad_shape r = "custom" /\ pad_polygons r <> None.
Proof.
  eexists. split; [reflexivity|].
  destruct (parse_pad_optional_entries Q exact kicad5 (sample_pad 5 1 0) _ eq_refl)
    as (Hpin & _ & Hpoly & _).
  split; [apply Hpin; now left|].
  split; [reflexivity|]. apply Hpoly. reflexivity.
Defined.

(** X13. The layers of a pad record are the copper sides the pad is on:
    [F] is listed exactly when [F_Cu] is in the pad's layer set, [B]
    exactly when [B_Cu] is, and [F] stands before [B]. *)
Theorem parse_pad_layers (F : Type) (FL : PyFloat F) (K : pcbnew_consts)
    (pad : Pad.t) (r : pad_rec (F := F)) :
  parse_pad K pad = Some r ->
  (In "F" (pad_layers r) <-> In (F_Cu K) (Pad.GetLayerSet pad)) /\
  (In "B" (pad_layers r) <-> In (B_Cu K) (Pad.GetLayerSet pad)) /\
  (pad_layers r = [] \/ pad_layers r = ["F"] \/ pad_layers r = ["B"] \/
   pad_layers r = ["F"; "B"]).
Proof.
  intros H. destruct (parse_pad_record F FL K pad r H)
    as (s & _ & _ & Hl & _).
  rewrite Hl, <- !z_in_In.
  destruct (z_in (F_Cu K) (Pad.GetLayerSet pad)),
           (z_in (B_Cu K) (Pad.GetLayerSet pad)); simpl;
    intuition (try discriminate; auto).
Qed.

Lemma parse_pad_layers_witness :
  exists r,
    parse_pad (F := Q) kicad5 (sample_pad 0 3 7) = Some r /\
    In "F" (pad_layers r) /\ In "B" (pad_layers r).
Proof.
  eexists. split; [reflexivity|].
  destruct (parse_pad_layers Q exact kicad5 (sample_pad 0 3 7) _ eq_refl)
    as (HF & HB & _).
  split; [apply HF|apply HB]; simpl; auto.
Defined.

(** ** The footprints mapping *)

Lemma dict_set_keys_iff {K V : Type} (eqb : K -> K -> bool)
    (eqb_eq : forall a b, eqb a b = true <-> a = b) k (v : V) d k' :
  In k' (dict_keys (dict_set eqb k v d)) <-> k' = k \/ In k' (dict_keys d).
Proof.
  induction d as [|[k0 v0] d IH]; simpl.
  - intuition.
  - destruct (eqb k k0) eqn:E; simpl.
    + apply eqb_eq in E. subst. intuition.
    + rewrite IH. intuition.
Qed.

Lemma dict_set_entries {K V : Type} (eqb : K -> K -> bool)
    (eqb_eq : forall a b, eqb a b = true <-> a = b) k (v : V) d k' v' :
  In (k', v') (dict_set eqb k v d) -> (k' = k /\ v' = v) \/ In (k', v') d.
Proof.
  induction d as [|[k0 v0] d IH]; simpl.
  - intros [H|[]]. inversion H. auto.
  - destruct (eqb k k0) eqn:E; simpl.
    + apply eqb_eq in E. subst. intros [H|H]; [inversion H|]; auto.
    + intros [H|H]; [auto|]. destruct (IH H); auto.
Qed.

Section ModuleKeys.
Context {F : Type} {FL : PyFloat F} (K : pcbnew_consts).

Local Notation "'step'" :=
  (fun (modules : dict string (module_rec (F := F))) (m : Footprint.t) =>
     dict_set String.eqb (Footprint.GetReference m) (module_entry K m) modules).

Lemma fold_modules_keys ms (d : dict string module_rec) k :
  In k (dict_keys (fold_left step ms d)) <->
  In k (dict_keys d) \/ In k (map Footprint.GetReference ms).
Proof.
  revert d. induction ms as [|m ms IH]; intros d; simpl; [tauto|].
  rewrite IH, (dict_set_keys_iff _ String.eqb_eq). intuition.
Qed.

Lemma fold_modules_entries ms (d : dict string module_rec) k e :
  In (k, e) (fold_left step ms d) ->
  In (k, e) d \/
  exists m, In m ms /\ Footprint.GetReference m = k /\ e = module_entry K m.
Proof.
  revert d. induction ms as [|m ms IH]; intros d; simpl; [tauto|].
  intros H. destruct (IH _ H) as [H1|(m' & Hm' & Hr & He)].
  - destruct (dict_set_entries _ String.eqb_eq _ _ _ _ _ H1) as [[-> ->]|H2];
      [|now left].
    right. exists m. auto.
  - right. exists m'. auto.
Qed.

(** X14. The mapping of [parse_modules] has a key for exactly the
    references of the board's footprints, each once, so as many entries as
    there are distinct references; the entry under a key is the record of a
    footprint with that reference and names the key as its [ref]. *)
Theorem parse_modules_keys (pcb : Board.t) :
  let refs_ := map Footprint.GetReference (Board.GetModules pcb) in
  NoDup (dict_keys (parse_modules (F := F) K pcb)) /\
  (forall r, In r (dict_keys (parse_modules (F := F) K pcb)) <-> In r refs_) /\
  (forall r, dict_get String.eqb r (parse_modules (F := F) K pcb) = None
             <-> ~ In r refs_) /\
  List.length (parse_modules (F := F) K pcb)
  = List.length (nodup string_dec refs_) /\
  (forall k e, In (k, e) (parse_modules (F := F) K pcb) ->
     mod_ref e = k /\
     exists m, In m (Board.GetModules pcb) /\ Footprint.GetReference m = k /\
               e = module_entry K m).
Proof.
  intros refs_.
  assert (Hnd : NoDup (dict_keys (parse_modules (F := F) K pcb))).
  { unfold parse_modules. apply fold_modules_NoDup. constructor. }
  assert (Hk : forall r, In r (dict_keys (parse_modules (F := F) K pcb))
                         <-> In r refs_).
  { intros r. unfold parse_modules. rewrite fold_modules_keys. simpl. tauto. }
  split; [exact Hnd|]. split; [exact Hk|]. split; [|split].
  - intros r. rewrite (dict_get_None_notin _ String.eqb_eq). now rewrite Hk.
  - replace (List.length (parse_modules (F := F) K pcb))
      with (List.length (dict_keys (parse_modules (F := F) K pcb)))
      by (unfold dict_keys; apply length_map).
    apply Permutation_length. apply NoDup_Permutation; [exact Hnd|apply NoDup_nodup|].
    intros r. rewrite Hk. now rewrite nodup_In.
  - intros k e He. unfold parse_modules in He.
    destruct (fold_modules_entries _ _ _ _ He) as [[]|(m & Hm & Hr & ->)].
    split; [exact Hr|]. exists m. auto.
Qed.

Lemma layer_dict_decode (l : Z) :
  dict_get Z.eqb l (dict_display Z.eqb [(F_Cu K, "F"); (B_Cu K, "B")])
  = if l =? B_Cu K then Some "B" else if l =? F_Cu K then Some "F" else None.
Proof.
  unfold dict_display. cbn [fold_left fst snd].
  destruct (l =? B_Cu K) eqn:Eb.
  - apply Z.eqb_eq in Eb. subst l. apply (dict_get_set_same _ Z.eqb_eq).
  - apply Z.eqb_neq in Eb.
    rewrite (dict_get_set_other _ Z.eqb_eq) by congruence.
    simpl. now destruct (l =? F_Cu K).
Qed.

(** X15. What the record of a footprint holds: the pads are the records of
    the footprint's pads that [parse_pad] does not skip; the drawings are
    the records of the graphical items on [F_Cu] or [B_Cu] that parse,
    tagged [F] for [F_Cu] and [B] otherwise, so that silkscreen and
    outline items are left out; the layer is [B] on [B_Cu], [F] on [F_Cu]
    and [None] on any other layer. *)
Theorem module_entry_contents (m : Footprint.t) :
  (forall p, In p (mod_pads (module_entry (F := F) K m)) <->
             exists pad, In pad (Footprint.Pads m) /\ parse_pad K pad = Some p) /\
  (List.length (mod_pads (module_entry (F := F) K m))
   <= List.length (Footprint.Pads m))%nat /\
  (forall tag r, In (tag, r) (mod_drawings (module_entry (F := F) K m)) <->
     exists d, In d (Footprint.GraphicalItems m) /\
               (Drawing.GetLayer d = F_Cu K \/ Drawing.GetLayer d = B_Cu K) /\
               parse_drawing K d = Some r /\
               tag = (if Drawing.GetLayer d =? F_Cu K then "F" else "B")) /\
  mod_layer (module_entry (F := F) K m)
  = (if Footprint.GetLayer m =? B_Cu K then Some "B"
     else if Footprint.GetLayer m =? F_Cu K then Some "F" else None).
Proof.
  split; [|split; [|split]].
  - intros p. simpl. rewrite in_flat_map. unfold module_pad.
    split; intros [pad [Hin Hp]]; exists pad; split; auto.
    + destruct (parse_pad K pad); simpl in Hp; [|contradiction].
      destruct Hp as [->|[]]. reflexivity.
    + rewrite Hp. now left.
  - simpl. induction (Footprint.Pads m) as [|pad l IH]; simpl; [lia|].
    rewrite length_app. unfold module_pad at 1.
    destruct (parse_pad K pad); simpl; lia.
  - intros tag r. simpl. rewrite in_flat_map. unfold module_drawing, z_in.
    cbn [existsb]. split.
    + intros [d [Hin Hd]]. exists d. split; [exact Hin|].
      destruct (Drawing.GetLayer d =? F_Cu K) eqn:Ef;
        destruct (Drawing.GetLayer d =? B_Cu K) eqn:Eb; simpl in Hd;
        try contradiction;
        (destruct (parse_drawing K d); simpl in Hd; [|contradiction]);
        destruct Hd as [Hd|[]]; inversion Hd; subst;
        rewrite ?Z.eqb_eq in *; auto.
    + intros [d (Hin & Hl & Hp & ->)]. exists d. split; [exact Hin|].
      rewrite Hp.
      assert (Hor : (Drawing.GetLayer d =? F_Cu K)
                    || ((Drawing.GetLayer d =? B_Cu K) || false) = true).
      { rewrite !orb_true_iff, !Z.eqb_eq. tauto. }
      rewrite Hor. simpl. now left.
  - simpl. apply layer_dict_decode.
Qed.

End ModuleKeys.

(** ** The BOM of one layer, and what a line holds *)

Lemma filter_filter {A : Type} (p q : A -> bool) (l : list A) :
  filter p (filter q l) = filter (fun a => q a && p a) l.
Proof.
  induction l as [|a l IH]; simpl; [reflexivity|].
  destruct (q a); simpl; [destruct (p a)|]; now rewrite IH.
Qed.

Section BomLayers.
Variable componentValue : string -> string.

Lemma generate_bom_table pcb fl table :
  generate_bom componentValue pcb fl = Some table ->
  Permutation (bom_table componentValue pcb fl) table.
Proof.
  intros Ht.
  exact (proj1 (py_sorted_partial_spec sortkey_ltb sortkey_ltb_asym
                  sortkey_ltb_le_trans _ _ _ Ht)).
Qed.

Lemma bom_table_all_refs pcb fl :
  Permutation (flat_map refs (bom_table componentValue pcb fl))
    (map Footprint.GetReference (filter (counted fl) (Board.GetModules pcb))).
Proof.
  unfold bom_table. rewrite bom_table_refs.
  unfold part_groups. rewrite fold_group_step_filter, fold_group_step_held.
  simpl. rewrite filter_filter. apply Permutation_map.
  erewrite filter_ext; [reflexivity|].
  intros m. unfold counted, not_virtual_key, group_key, is_virtual. simpl.
  now rewrite attr_label_virtual.
Qed.

(** X16. With a layer filter the BOM counts the footprints of that layer
    only: the references of all lines of the returned table are, with
    multiplicity, the references of the footprints that are on the layer
    and not virtual. *)
Theorem generate_bom_layer_filter (pcb : Board.t) (layer : Z) :
  exists table,
    generate_bom componentValue pcb (Some layer) = Some table /\
    Permutation (flat_map refs table)
      (map Footprint.GetReference
         (filter (fun m => (layer =? Footprint.GetLayer m) && negb (is_virtual m))
            (Board.GetModules pcb))).
Proof.
  destruct (generate_bom_returns componentValue pcb (Some layer)) as [table Ht].
  exists table. split; [exact Ht|].
  rewrite <- (Permutation_flat_map refs (generate_bom_table _ _ _ Ht)).
  rewrite bom_table_all_refs. apply Permutation_map.
  erewrite filter_ext; [reflexivity|].
  intros m. unfold counted, filtered_out. now rewrite negb_involutive.
Qed.

Lemma counted_layer l m :
  counted (Some l) m = (l =? Footprint.GetLayer m) && negb (is_virtual m).
Proof. unfold counted, filtered_out. now rewrite negb_involutive. Qed.

Lemma filter_two_layers (l1 l2 : Z) (ms : list Footprint.t) :
  l1 <> l2 ->
  Forall (fun m => Footprint.GetLayer m = l1 \/ Footprint.GetLayer m = l2) ms ->
  Permutation (filter (counted None) ms)
    (filter (counted (Some l1)) ms ++ filter (counted (Some l2)) ms).
Proof.
  intros Hne Hall. induction Hall as [|m ms Hm _ IH]; simpl; [constructor|].
  rewrite !counted_layer. unfold counted at 1. simpl.
  destruct (is_virtual m); simpl.
  - rewrite !andb_false_r. exact IH.
  - rewrite !andb_true_r.
    destruct Hm as [Hm|Hm]; rewrite Hm.
    + rewrite Z.eqb_refl. rewrite (proj2 (Z.eqb_neq l2 l1)) by congruence.
      simpl. now constructor.
    + rewrite Z.eqb_refl. rewrite (proj2 (Z.eqb_neq l1 l2)) by congruence.
      rewrite IH. apply Permutation_middle.
Qed.

(** X17. On a board whose footprints are all on one of two different
    layers, the BOMs of the two layers split the unrestricted BOM: the
    references of the unrestricted table are, with multiplicity, those of
    the one table together with those of the other. *)
Theorem bom_layers_partition (pcb : Board.t) (l1 l2 : Z) :
  l1 <> l2 ->
  Forall (fun m => Footprint.GetLayer m = l1 \/ Footprint.GetLayer m = l2)
    (Board.GetModules pcb) ->
  exists both t1 t2,
    generate_bom componentValue pcb None = Some both /\
    generate_bom componentValue pcb (Some l1) = Some t1 /\
    generate_bom componentValue pcb (Some l2) = Some t2 /\
    Permutation (flat_map refs both) (flat_map refs t1 ++ flat_map refs t2).
Proof.
  intros Hne Hall.
  destruct (generate_bom_returns componentValue pcb None) as [both Hb].
  destruct (generate_bom_returns componentValue pcb (Some l1)) as [t1 H1].
  destruct (generate_bom_returns componentValue pcb (Some l2)) as [t2 H2].
  exists both, t1, t2. repeat split; auto.
  rewrite <- (Permutation_flat_map refs (generate_bom_table _ _ _ Hb)).
  rewrite <- (Permutation_flat_map refs (generate_bom_table _ _ _ H1)).
  rewrite <- (Permutation_flat_map refs (generate_bom_table _ _ _ H2)).
  rewrite !bom_table_all_refs, <- map_app. apply Permutation_map.
  now apply filter_two_layers.
Qed.

Lemma natural_sort_length rs : List.length (natural_sort rs) = List.length rs.
Proof.
  symmetry. apply Permutation_length.
  apply (py_sorted_spec PyOrd.list_ltb list_ltb_asym list_ltb_le_trans).
Qed.

Lemma total_qty_refs (rows : list bom_row) :
  Forall (fun r => qty r = Z.of_nat (List.length (refs r))) rows ->
  total_qty rows = Z.of_nat (List.length (flat_map refs rows)).
Proof.
  unfold total_qty. induction 1 as [|r rows Hr _ IH]; simpl; [reflexivity|].
  rewrite length_app, IH, Hr. lia.
Qed.

Lemma bom_table_row_shape pcb fl row :
  In row (bom_table componentValue pcb fl) ->
  refs row <> [] /\
  qty row = Z.of_nat (List.length (refs row)) /\
  StronglySorted natural_le (refs row).
Proof.
  intros Hin.
  destruct (bom_table_rows _ _ _ _ Hin)
    as (nv & attr & rs & _ & _ & Hne & Hq & Hr & _).
  rewrite Hr. split; [now apply natural_sort_nonempty|].
  split; [now rewrite natural_sort_length|].
  destruct (py_sorted_spec PyOrd.list_ltb list_ltb_asym list_ltb_le_trans
              alphanum_key rs) as [_ Hs].
  eapply StronglySorted_weaken; [|exact Hs].
  intros a b H. apply natural_le_key.
  apply (proj1 (is_lt_false_le _ _)). exact H.
Qed.

(** X18. The quantities of the returned table add up to the number of
    footprints the BOM counts: those on the filter's layer, when there is
    a filter, that are not virtual. *)
Theorem bom_total_quantity (pcb : Board.t) (filter_layer : option Z) :
  exists table,
    generate_bom componentValue pcb filter_layer = Some table /\
    total_qty table
    = Z.of_nat (List.length (filter (counted filter_layer) (Board.GetModules pcb))).
Proof.
  destruct (generate_bom_returns componentValue pcb filter_layer) as [table Ht].
  exists table. split; [exact Ht|].
  pose proof (generate_bom_table _ _ _ Ht) as Hp.
  rewrite total_qty_refs.
  - rewrite <- (Permutation_length (Permutation_flat_map refs Hp)).
    rewrite (Permutation_length (bom_table_all_refs pcb filter_layer)).
    now rewrite length_map.
  - rewrite Forall_forall. intros r Hr. apply Permutation_sym in Hp.
    apply (bom_table_row_shape pcb filter_layer r).
    exact (Permutation_in _ Hp Hr).
Qed.

(** X19. Every line of the returned table has at least one reference, has
    as quantity the number of its references, and lists them in natural
    order. *)
Theorem bom_rows_well_formed (pcb : Board.t) (filter_layer : option Z) :
  exists table,
    generate_bom componentValue pcb filter_layer = Some table /\
    Forall (fun row =>
              refs row <> [] /\
              qty row = Z.of_nat (List.length (refs row)) /\
              1 <= qty row /\
              StronglySorted natural_le (refs row)) table.
Proof.
  destruct (generate_bom_returns componentValue pcb filter_layer) as [table Ht].
  exists table. split; [exact Ht|].
  pose proof (generate_bom_table _ _ _ Ht) as Hp.
  rewrite Forall_forall. intros r Hr. apply Permutation_sym in Hp.
  destruct (bom_table_row_shape pcb filter_layer r (Permutation_in _ Hp Hr))
    as (Hne & Hq & Hs).
  repeat split; auto.
  rewrite Hq. destruct (refs r); [contradiction|simpl; lia].
Qed.

Lemma str_of_int_head a :
  match str_of_int a with
  | EmptyString => True
  | String c _ => PyStr.is_upper c = false
  end.
Proof.
  unfold str_of_int. destruct a as [|p|p]; simpl; try reflexivity.
  destruct (Pos.to_uint p); simpl; auto.
Qed.

Lemma str_of_int_inj a b : str_of_int a = str_of_int b -> a = b.
Proof.
  unfold str_of_int. intros H.
  apply (f_equal NilEmpty.int_of_string) in H.
  rewrite !NilEmpty.isi in H. inversion H as [H1].
  apply (f_equal Z.of_int) in H1. now rewrite !DecimalZ.of_to in H1.
Qed.

Lemma attr_label_cases a :
  (a = 0 /\ attr_label a = "Normal") \/
  (a = 1 /\ attr_label a = "Normal+Insert") \/
  (a = 2 /\ attr_label a = "Virtual") \/
  (a <> 0 /\ a <> 1 /\ a <> 2 /\ attr_label a = str_of_int a).
Proof.
  unfold attr_label.
  change attr_dict with [(0, "Normal"); (1, "Normal+Insert"); (2, "Virtual")].
  simpl.
  destruct (a =? 0) eqn:E0; [apply Z.eqb_eq in E0; auto|].
  destruct (a =? 1) eqn:E1; [apply Z.eqb_eq in E1; auto|].
  destruct (a =? 2) eqn:E2; [apply Z.eqb_eq in E2; auto 6|].
  apply Z.eqb_neq in E0, E1, E2. auto 8.
Qed.

(** The label of an attribute code tells the code. *)
Lemma attr_label_inj a b : attr_label a = attr_label b -> a = b.
Proof.
  intros H.
  pose proof (str_of_int_head a) as Ha. pose proof (str_of_int_head b) as Hb.
  destruct (attr_label_cases a) as [[-> E]|[[-> E]|[[-> E]|(A0 & A1 & A2 & E)]]];
    destruct (attr_label_cases b) as [[-> E']|[[-> E']|[[-> E']|(B0 & B1 & B2 & E')]]];
    try reflexivity; rewrite E, E' in H; try discriminate H.
  - rewrite <- H in Hb. discriminate.
  - rewrite <- H in Hb. discriminate.
  - rewrite <- H in Hb. discriminate.
  - rewrite H in Ha. discriminate.
  - rewrite H in Ha. discriminate.
  - rewrite H in Ha. discriminate.
  - now apply str_of_int_inj.
Qed.

(** X20. What a line stands for: the footprints counted by the BOM that
    share one grouping key.  The line's value is the value of the first of
    them on the board, its quantity is their number, and they all have the
    line's footprint name, the same normalized value and the same
    attribute code, which is not the virtual one. *)
Theorem bom_row_members (pcb : Board.t) (filter_layer : option Z) :
  exists table,
    generate_bom componentValue pcb filter_layer = Some table /\
    forall row, In row table ->
      exists m0 rest,
        filter (fun m => key_eqb (group_key componentValue m)
                           (group_key componentValue m0))
          (filter (counted filter_layer) (Board.GetModules pcb))
        = m0 :: rest /\
        value row = Footprint.GetValue m0 /\
        qty row = Z.of_nat (List.length (m0 :: rest)) /\
        Permutation (refs row) (map Footprint.GetReference (m0 :: rest)) /\
        Forall (fun m =>
                  footprint_name m = footprint row /\
                  componentValue (Footprint.GetValue m)
                  = componentValue (Footprint.GetValue m0) /\
                  Footprint.GetAttributes m = Footprint.GetAttributes m0 /\
                  Footprint.GetAttributes m <> 2)
          (m0 :: rest).
Proof.
  destruct (generate_bom_returns componentValue pcb filter_layer) as [table Ht].
  exists table. split; [exact Ht|].
  pose proof (generate_bom_table _ _ _ Ht) as Hp.
  intros row Hrow. apply Permutation_sym in Hp.
  destruct (bom_table_rows _ _ _ _ (Permutation_in _ Hp Hrow))
    as (nv & attr & rs & Ha & Hg & Hne & Hq & Hr & Hm).
  unfold members in Hm.
  set (ms := filter (fun m => negb (filtered_out filter_layer m))
               (Board.GetModules pcb)) in *.
  set (k := (nv, footprint row, attr)) in *.
  destruct (filter (fun m => key_eqb (group_key componentValue m) k) ms)
    as [|m0 rest] eqn:Ef; [subst rs; contradiction|].
  assert (Hall : Forall (fun m => group_key componentValue m = k /\ In m ms)
                   (m0 :: rest)).
  { rewrite Forall_forall. intros m Hin. rewrite <- Ef in Hin.
    apply filter_In in Hin. destruct Hin as [Hin Hk].
    apply key_eqb_eq in Hk. auto. }
  assert (Hk0 : group_key componentValue m0 = k).
  { inversion Hall; tauto. }
  assert (Hnv : forall m, group_key componentValue m = k -> is_virtual m = false).
  { intros m Hk. unfold is_virtual. rewrite <- attr_label_virtual.
    unfold group_key, k in Hk. inversion Hk as [[Hv Hf Hl]].
    rewrite Hl. exact Ha. }
  exists m0, rest. split; [|split; [|split; [|split]]].
  - rewrite Hk0. rewrite <- Ef. unfold ms. rewrite !filter_filter.
    apply filter_ext_in. intros m _. unfold counted.
    destruct (key_eqb (group_key componentValue m) k) eqn:E.
    + apply key_eqb_eq in E. rewrite (Hnv m E).
      now destruct (negb (filtered_out filter_layer m)).
    + now rewrite !andb_false_r.
  - destruct (part_groups_inv componentValue pcb filter_layer) as [_ Hget].
    rewrite Hget in Hg. unfold group_of, members in Hg. fold ms in Hg. fold k in Hg.
    rewrite Ef in Hg. now inversion Hg.
  - rewrite Hq, Hm. now rewrite length_map.
  - rewrite Hr, Hm. symmetry.
    apply (py_sorted_spec PyOrd.list_ltb list_ltb_asym list_ltb_le_trans).
  - eapply Forall_impl; [|exact Hall]. intros m [Hk _].
    pose proof (Hnv m Hk) as Hnot.
    rewrite <- Hk0 in Hk. unfold group_key in Hk. injection Hk as Hv Hf Hl.
    assert (Hf' : footprint_name m0 = footprint row).
    { unfold group_key, k in Hk0. now inversion Hk0. }
    split; [congruence|]. split; [exact Hv|].
    split; [now apply attr_label_inj|].
    unfold is_virtual in Hnot. now apply Z.eqb_neq.
Qed.

End BomLayers.

Lemma bom_layers_partition_witness :
  exists both t1 t2,
    generate_bom (fun s => s) board_duplicate_ref None = Some both /\
    generate_bom (fun s => s) board_duplicate_ref (Some 0) = Some t1 /\
    generate_bom (fun s => s) board_duplicate_ref (Some 31) = Some t2 /\
    Permutation (flat_map refs both) (flat_map refs t1 ++ flat_map refs t2).
Proof.
  apply (bom_layers_partition (fun s => s) board_duplicate_ref 0 31).
  - discriminate.
  - simpl. constructor; [now left|]. constructor; [now left|].
    constructor; [now right|]. constructor.
Defined.

(** ** What a run ends with *)

Section MainDocument.
Context {F : Type} {FL : PyFloat F} (K : pcbnew_consts).
Variables (rect_Merge : Rect -> Rect -> Rect) (rect_Normalize : Rect -> Rect).
Variable componentValue : string -> string.
Variables rect_GetRight rect_GetBottom : Rect -> Z.
Variables mtime_date title_of_path bom_dir_of_path : string -> string.

Local Notation "'run'" :=
  (main (F := F) K rect_Merge rect_Normalize componentValue rect_GetRight
     rect_GetBottom mtime_date title_of_path bom_dir_of_path).

Lemma bom_views_spec pcb :
  F_Cu K <> B_Cu K ->
  exists both front back,
    generate_bom componentValue pcb None = Some both /\
    generate_bom componentValue pcb (Some (F_Cu K)) = Some front /\
    generate_bom componentValue pcb (Some (B_Cu K)) = Some back /\
    bom_views K componentValue pcb
    = Some [("both", both); ("F", front); ("B", back)].
Proof.
  intros Hne.
  destruct (generate_bom_returns componentValue pcb None) as [t0 H0].
  destruct (generate_bom_returns componentValue pcb (Some (F_Cu K))) as [t1 H1].
  destruct (generate_bom_returns componentValue pcb (Some (B_Cu K))) as [t2 H2].
  exists t0, t1, t2. repeat split; auto.
  unfold bom_views. rewrite H0. cbn [fold_left]. rewrite H1, H2.
  rewrite Z.eqb_refl. rewrite (proj2 (Z.eqb_neq (B_Cu K) (F_Cu K))) by congruence.
  reflexivity.
Qed.

(** X21. How [main] can end.  A board without a file name gets the
    request to save it, before anything of the board is read, so also
    when the outline is missing or [getDrawings] is.  An exception leaves
    [main] only on a saved board without the [getDrawings] attribute: the
    [rf[0]] of [sort_func] never raises on the lines of a BOM. *)
Theorem main_endings (is_cli : bool) (pcb : Board.t) (launch_browser : bool) :
  (Board.GetFileName pcb = "" ->
   run is_cli pcb launch_browser
   = Reported (if is_cli then LogError else MessageBox) msg_save) /\
  (forall exc, run is_cli pcb launch_browser = Raised exc ->
     exc = "AttributeError" /\ Board.GetFileName pcb <> "" /\
     Board.getDrawings pcb = None) /\
  (forall c msg, run is_cli pcb launch_browser = Reported c msg ->
     c = (if is_cli then LogError else MessageBox) /\
     (msg = msg_save /\ Board.GetFileName pcb = "" \/
      msg = msg_outline /\ Board.GetFileName pcb <> "")).
Proof.
  unfold main, report, parse_edges.
  destruct (String.eqb (Board.GetFileName pcb) "") eqn:En.
  - apply String.eqb_eq in En. split; [reflexivity|]. split.
    + discriminate.
    + intros c msg H. inversion H; subst. auto.
  - assert (Hn : Board.GetFileName pcb <> "").
    { intros H. rewrite H in En. discriminate. }
    split; [contradiction|].
    destruct (Board.getDrawings pcb) as [ds|].
    + destruct (fold_left (edge_step K rect_Merge) (ds ++ all_graphical_items pcb)
                  ([], None)) as [es [b|]]; simpl.
      * destruct (bom_views_returns K componentValue pcb) as [bv ->].
        split; discriminate.
      * split; [discriminate|]. intros c msg H. inversion H; subst. auto.
    + split.
      * intros exc H. inversion H. auto.
      * discriminate.
Qed.

(** X22. The document [main] writes, on a board whose [F_Cu] and [B_Cu]
    differ: it goes to the [bom] directory beside the board file and the
    browser flag is passed on; title and date are those of the title
    block, or, when empty, the file's base name and its modification
    time; the edges are the parsed outline drawings; and the BOM has the
    three views [both], [F] and [B], the tables of [generate_bom] without
    filter, for [F_Cu] and for [B_Cu]. *)
Theorem main_document (is_cli : bool) (pcb : Board.t) (launch_browser : bool)
    (dir : string) (doc : pcbdata (F := F)) (browser : bool) :
  F_Cu K <> B_Cu K ->
  run is_cli pcb launch_browser = Written dir doc browser ->
  dir = bom_dir_of_path (Board.GetFileName pcb) /\
  browser = launch_browser /\
  md_title (metadata doc)
  = (if String.eqb (GetTitle (Board.GetTitleBlock pcb)) ""
     then title_of_path (Board.GetFileName pcb)
     else GetTitle (Board.GetTitleBlock pcb)) /\
  md_date (metadata doc)
  = (if String.eqb (GetDate (Board.GetTitleBlock pcb)) ""
     then mtime_date (Board.GetFileName pcb)
     else GetDate (Board.GetTitleBlock pcb)) /\
  md_revision (metadata doc) = GetRevision (Board.GetTitleBlock pcb) /\
  md_company (metadata doc) = GetCompany (Board.GetTitleBlock pcb) /\
  (exists ds,
     Board.getDrawings pcb = Some ds /\
     edges doc
     = parsed_list K (outline_parsed (F := F) K (ds ++ all_graphical_items pcb))) /\
  dict_keys (bom doc) = ["both"; "F"; "B"] /\
  dict_get String.eqb "both" (bom doc) = generate_bom componentValue pcb None /\
  dict_get String.eqb "F" (bom doc)
  = generate_bom componentValue pcb (Some (F_Cu K)) /\
  dict_get String.eqb "B" (bom doc)
  = generate_bom componentValue pcb (Some (B_Cu K)).
Proof.
  intros Hne. unfold main, report, parse_edges.
  destruct (String.eqb (Board.GetFileName pcb) ""); [discriminate|].
  destruct (Board.getDrawings pcb) as [ds|]; [|discriminate].
  rewrite (edge_fold_collects K rect_Merge). simpl.
  destruct (merge_boxes rect_Merge None
              (outline_parsed (F := F) K (ds ++ all_graphical_items pcb)))
    as [b|]; simpl; [|discriminate].
  destruct (bom_views_spec pcb Hne) as (t0 & t1 & t2 & H0 & H1 & H2 & ->).
  intros H. inversion H; subst. clear H. simpl.
  rewrite H0, H1, H2. repeat split; try reflexivity.
  exists ds. auto.
Qed.

End MainDocument.

Lemma main_document_witness :
  exists doc,
    main (F := Q) kicad5 (fun a _ => a) (fun a => a) (fun s => s)
      (fun r => fst (rect_GetPosition r) + fst (rect_GetSize r))
      (fun r => snd (rect_GetPosition r) + snd (rect_GetSize r))
      (fun _ => "2018-08-01 12:00:00") (fun _ => "demo") (fun _ => "bom")
      true board_duplicate_ref false
    = Written "bom" doc false /\
    md_title (metadata doc) = "demo" /\
    dict_keys (bom doc) = ["both"; "F"; "B"].
Proof.
  eexists. split; [reflexivity|].
  destruct (main_document (F := Q) kicad5 (fun a _ => a) (fun a => a) (fun s => s)
              (fun r => fst (rect_GetPosition r) + fst (rect_GetSize r))
              (fun r => snd (rect_GetPosition r) + snd (rect_GetSize r))
              (fun _ => "2018-08-01 12:00:00") (fun _ => "demo") (fun _ => "bom")
              true board_duplicate_ref false _ _ _
              ltac:(discriminate) eq_refl)
    as (_ & _ & Ht & _ & _ & _ & _ & Hk & _).
  split; [exact Ht|exact Hk].
Defined.

Lemma bom_any_iteration_order_witness :
  exists table,
    py_sorted_partial sortkey_ltb sort_func
      (flat_map bom_line (rev (part_groups (fun s => s) board_duplicate_ref None)))
    = Some table /\
    StronglySorted priority_le table.
Proof.
  destruct (bom_any_iteration_order (fun s => s) board_duplicate_ref None
              (rev (part_groups (fun s => s) board_duplicate_ref None))
              (Permutation_sym (Permutation_rev _)))
    as (table & Ht & _ & Hs).
  exists table. split; [exact Ht|exact Hs].
Defined.

(** ** The rank of a reference *)

Lemma upper_prefix_app p rest :
  all_upper p = true -> starts_upper rest = false ->
  PyStr.upper_prefix (p ++ rest) = p.
Proof.
  intros Hp Hr. induction p as [|c p IH]; simpl.
  - destruct rest as [|c r]; [reflexivity|]. simpl in Hr. simpl. now rewrite Hr.
  - simpl in Hp. apply andb_prop in Hp. destruct Hp as [Hc Hp].
    rewrite Hc. now rewrite IH.
Qed.

(** X24. [sort_func] ranks a line by the capitals its first reference
    starts with and by nothing after them: when the first reference is
    capitals [p] followed by text that does not start with a capital, the
    first component of the key is the rank of [p], and it is 1000 when the
    reference does not start with a capital at all. *)
Theorem sort_func_rank (row : bom_row) (p rest : string) (others : list string) :
  refs row = (p ++ rest)%string :: others ->
  all_upper p = true -> starts_upper rest = false ->
  exists fp q k,
    sort_func row = Some (category_rank p, fp, q, k) /\
    fp = footprint row /\ q = - qty row /\
    (p = "" -> category_rank p = 1000).
Proof.
  intros Hr Hp Hrest. unfold sort_func. rewrite Hr.
  rewrite (upper_prefix_app p rest Hp Hrest), ref_ord_rank.
  do 3 eexists. split; [reflexivity|]. repeat split.
  intros ->. reflexivity.
Qed.

Lemma sort_func_rank_witness :
  exists fp q k,
    sort_func {| qty := 2; value := "10k"; footprint := "R_0805";
                 refs := ["SW12"; "SW13"] |}
    = Some (10, fp, q, k).
Proof.
  destruct (sort_func_rank
              {| qty := 2; value := "10k"; footprint := "R_0805";
                 refs := ["SW12"; "SW13"] |} "SW" "12" ["SW13"]
              eq_refl eq_refl eq_refl)
    as (fp & q & k & H & _).
  exists fp, q, k. exact H.
Defined.

(** ** One line for each key *)

Section BomLines.
Variable componentValue : string -> string.

Lemma bom_table_length (d : dict (string * string * string) (string * list string)) :
  List.length (flat_map bom_line d)
  = List.length (filter not_virtual_key (dict_keys d)).
Proof.
  induction d as [|[[[nv fp] attr] [v rs]] d IH]; simpl; [reflexivity|].
  unfold not_virtual_key at 1. simpl.
  destruct (String.eqb attr "Virtual"); simpl; now rewrite IH.
Qed.

Lemma part_groups_key_iff pcb fl k :
  In k (dict_keys (part_groups componentValue pcb fl)) <->
  exists m,
    In m (filter (fun m => negb (filtered_out fl m)) (Board.GetModules pcb)) /\
    group_key componentValue m = k.
Proof.
  destruct (part_groups_inv componentValue pcb fl) as [_ Hget].
  set (ms := filter (fun m => negb (filtered_out fl m)) (Board.GetModules pcb)) in *.
  specialize (Hget k). unfold group_of, members in Hget.
  destruct (filter (fun m => key_eqb (group_key componentValue m) k) ms)
    as [|m0 l] eqn:Ef.
  - apply (dict_get_None_notin _ key_eqb_eq) in Hget. split; [contradiction|].
    intros [m [Hm Hk]]. exfalso.
    assert (Hin : In m (filter (fun m' => key_eqb (group_key componentValue m') k) ms)).
    { apply filter_In. split; [exact Hm|]. now apply key_eqb_eq. }
    rewrite Ef in Hin. contradiction.
  - split.
    + intros _. assert (Hm : In m0 (m0 :: l)) by now left.
      rewrite <- Ef in Hm. apply filter_In in Hm. destruct Hm as [Hm Hk].
      exists m0. split; [exact Hm|]. now apply key_eqb_eq.
    + intros _. apply (dict_get_Some_In _ key_eqb_eq) in Hget.
      change k with (fst (k, (Footprint.GetValue m0,
                              map Footprint.GetReference (m0 :: l)))).
      now apply in_map.
Qed.

(** X25. The table has one line for each grouping key of the counted
    footprints: its number of lines is the number of distinct keys
    (normalized value, footprint name, attribute label) among the
    footprints that are on the filter's layer and not virtual. *)
Theorem bom_one_line_per_key (pcb : Board.t) (filter_layer : option Z) :
  exists table,
    generate_bom componentValue pcb filter_layer = Some table /\
    List.length table
    = List.length
        (nodup key_dec
           (map (group_key componentValue)
              (filter (counted filter_layer) (Board.GetModules pcb)))).
Proof.
  destruct (generate_bom_returns componentValue pcb filter_layer) as [table Ht].
  exists table. split; [exact Ht|].
  rewrite <- (Permutation_length (generate_bom_table _ _ _ _ Ht)).
  unfold bom_table. rewrite bom_table_length.
  apply Permutation_length. apply NoDup_Permutation.
  - apply NoDup_filter.
    exact (proj1 (part_groups_inv componentValue pcb filter_layer)).
  - apply NoDup_nodup.
  - intros k. rewrite nodup_In, filter_In, part_groups_key_iff, in_map_iff.
    split.
    + intros [[m [Hm Hk]] Hnv]. exists m. split; [exact Hk|].
      apply filter_In in Hm. destruct Hm as [Hm Hf].
      apply filter_In. split; [exact Hm|]. unfold counted. rewrite Hf. simpl.
      subst k. unfold not_virtual_key, group_key in Hnv. simpl in Hnv.
      unfold is_virtual. now rewrite <- attr_label_virtual.
    + intros [m [Hk Hm]]. apply filter_In in Hm. destruct Hm as [Hm Hc].
      unfold counted in Hc. apply andb_prop in Hc. destruct Hc as [Hf Hv].
      split.
      * exists m. split; [|exact Hk]. apply filter_In. auto.
      * subst k. unfold not_virtual_key, group_key. simpl.
        rewrite attr_label_virtual. exact Hv.
Qed.

End BomLines.
